(** * Padding calibration ([gfsa/datasets/padding_calibration.py])

    A shallow embedding of [calibrate_padding] and a verification of the
    statements its specification makes about it.

    Numbers.  The fitted parameters are jax arrays, so the solver, the
    reporter and the loss compute in single-precision floating point, and
    the integer arrays enter the loss narrowed to 32 bits.  The embedding
    narrows the arrays as the program does, computes in exact real
    arithmetic ([R]) and keeps the one piece of floating-point behaviour
    the control flow depends on: an operation that has no finite real
    result (the square root or logarithm of a negative number, a division
    by zero, [erfinv] outside its domain) yields a non-finite float,
    written [None] in the type [fl := option R]; a comparison with such a
    value is false, and [int()] of it raises.  With finite fitted
    parameters a constraint that is not finite is, in exact arithmetic,
    always a NaN (a zero slope gives zero over zero, an infinite [erfinv]
    gives infinity minus infinity), a loss that is not finite is only ever
    compared through [abs(last_loss - loss) < epsilon], which is false for
    a NaN and for an infinity alike, and the logarithm of zero in the
    rounding is treated apart; so one value stands for all of them.

    Rounding error, overflow and underflow are not modelled: the value the
    program computes for a constraint or a quantile can differ from the
    real one, most where b^2 - 4ac cancels, and [int()] of an infinity or
    the conversion of a bound of 2^31 or more raises [OverflowError], which
    the embedding has no case for.  The statements of Part II are therefore
    of two kinds.  Those about the solver and the reporter take the
    constraints or the quantiles as given, as hypotheses
    [constraint ... = Some r] or [quantile ... = Some q], and say what the
    program does with them; they do not rest on how the values are
    computed.  Those at concrete inputs use values that single precision
    holds and computes exactly, or conclude with a margin far above the
    rounding error.

    Collaborators.  [np.random.randint], the caller's [example_builder],
    [jax.grad] and the optimiser of [optax.adam] are parameters of the
    embedding; the first two read and change a world state that is passed
    along, and may raise.  The [progress] wrapper is the default one, the
    identity, and [print] is left out except for the variables it reads. *)

From Stdlib Require Import Reals Lra Lia ZArith List Bool String Psatz.
From Stdlib Require Import ClassicalEpsilon.
Import ListNotations.

Local Open Scope R_scope.

(** * Part I: the program *)

(** ** Conversions between reals and integers *)

Module PyNum.

(** [np.floor] followed by [int]: the greatest integer below or at [r]. *)
Definition Rfloor (r : R) : Z := Int_part r.

(** [np.ceil] followed by [int]: the least integer above or at [r]. *)
Definition Rceil (r : R) : Z := (- Int_part (- r))%Z.

(** Python's [int(x)] on a finite float: truncation toward zero. *)
Definition Rtrunc (r : R) : Z :=
  if Rle_dec 0 r then Rfloor r else Rceil r.

End PyNum.

(** ** The error function and its inverse ([scipy.special.erfinv]) *)

Module Erf.

(** The integrand of the error function. *)
Definition gauss (t : R) : R := exp (- (t * t)).

(** The integrand is continuous, hence integrable over every interval:
    the proof is what the integral below is taken with. *)
Lemma gauss_continuity : continuity gauss.
Proof. unfold gauss. reg. Qed.

Lemma gauss_integrable (a b : R) : Riemann_integrable gauss a b.
Proof.
  destruct (Rle_dec a b) as [H|H].
  - apply continuity_implies_RiemannInt; [exact H|].
    intros x _. apply gauss_continuity.
  - apply RiemannInt_P1, continuity_implies_RiemannInt; [lra|].
    intros x _. apply gauss_continuity.
Qed.

(** [gauss_int a b] is the integral of [gauss] from [a] to [b]. *)
Definition gauss_int (a b : R) : R := RiemannInt (gauss_integrable a b).

(** erf x = 2/sqrt(pi) * integral of exp(-t^2) for t from 0 to x. *)
Definition erf (x : R) : R := 2 / sqrt PI * gauss_int 0 x.

(** [scipy.special.erfinv y]: the [x] with [erf x = y]; a non-finite float
    where there is none ([y] outside the open interval from -1 to 1). *)
Definition erfinv (y : R) : option R :=
  match excluded_middle_informative (exists x, erf x = y) with
  | left H => Some (proj1_sig (constructive_indefinite_description _ H))
  | right _ => None
  end.

End Erf.

(** ** Floats, exceptions and the builtins the program calls *)

Module Py.
Import PyNum.

(** A float: a finite real, or [None] for a non-finite value. *)
Definition fl : Type := option R.

(** The exceptions the program can end with.  [UserError] stands for
    whatever a caller-supplied function raises. *)
Inductive exn : Type :=
| ValueError
| KeyError
| UnboundLocalError (var : string)
| UserError (name : string).

(** The outcome of a computation that may raise. *)
Definition result (A : Type) : Type := (exn + A)%type.

Definition raise {A : Type} (e : exn) : result A := inl e.
Definition ok {A : Type} (a : A) : result A := inr a.

Definition rbind {A B : Type} (m : result A) (k : A -> result B) : result B :=
  match m with
  | inl e => inl e
  | inr a => k a
  end.

(** [x ** 2] *)
Definition sq (x : R) : R := x * x.

(** [np.sqrt] *)
Definition fsqrt (x : R) : fl :=
  if Rle_dec 0 x then Some (sqrt x) else None.

(** [x / y]: non-finite when the divisor is zero. *)
Definition fdiv (x y : R) : fl :=
  if Req_dec_T y 0 then None else Some (x / y).

(** [jnp.log] *)
Definition flog (x : R) : fl :=
  if Rlt_dec 0 x then Some (ln x) else None.

Definition fl_bind {A : Type} (x : option A) (k : A -> fl) : fl :=
  match x with
  | Some a => k a
  | None => None
  end.

Definition fl_add (x y : fl) : fl :=
  fl_bind x (fun a => fl_bind y (fun b => Some (a + b))).

Definition fl_opp (x : fl) : fl := fl_bind x (fun a => Some (- a)).

(** [jnp.sum] *)
Definition fl_sum (l : list fl) : fl := fold_left fl_add l (Some 0).

(** [x < y] on floats: false as soon as one side is not finite. *)
Definition fl_ltb (x y : fl) : bool :=
  match x, y with
  | Some a, Some b => if Rlt_dec a b then true else false
  | _, _ => false
  end.

(** [np.abs(x - y) < eps] *)
Definition fl_close (x y : fl) (eps : R) : bool :=
  match x, y with
  | Some a, Some b => if Rlt_dec (Rabs (a - b)) eps then true else false
  | _, _ => false
  end.

(** The builtin [min] on a list: the first element, replaced by each later
    element that compares strictly less than the current minimum. *)
Definition py_min (l : list fl) : result fl :=
  match l with
  | [] => raise ValueError
  | x :: t => ok (fold_left (fun m y => if fl_ltb y m then y else m) t x)
  end.

(** [int(x)]: truncation toward zero; raises on a non-finite float. *)
Definition py_int (x : fl) : result Z :=
  match x with
  | Some r => ok (Rtrunc r)
  | None => raise ValueError
  end.

(** [int(np.ceil(x))] *)
Definition int_ceil (x : fl) : result Z :=
  match x with
  | Some r => ok (Rceil r)
  | None => raise ValueError
  end.

(** [int(np.exp2(np.ceil(np.log2(x))))].  The logarithm of zero is minus
    infinity, whose ceiling is minus infinity and whose power is zero; the
    logarithm of a negative number is not a number. *)
Definition int_exp2_ceil_log2 (x : fl) : result Z :=
  match x with
  | Some r =>
      if Rlt_dec 0 r then ok (Rtrunc (powerRZ 2 (Rceil (ln r / ln 2))))
      else if Req_dec_T r 0 then ok 0%Z
      else raise ValueError
  | None => raise ValueError
  end.

(** A numpy [int64] value as it enters a jax computation, where 64-bit
    types are disabled: narrowed to 32 bits, the value modulo 2^32 in the
    signed range. *)
Definition int32 (v : Z) : Z := ((v + 2 ^ 31) mod 2 ^ 32 - 2 ^ 31)%Z.

(** A dict with insertion order: lookup by key. *)
Fixpoint lookup {K A : Type} (eqb : K -> K -> bool) (k : K)
    (d : list (K * A)) : result A :=
  match d with
  | [] => raise KeyError
  | (k', a) :: rest => if eqb k k' then ok a else lookup eqb k rest
  end.

End Py.

Declare Scope py_scope.
Notation "x <- m ;; k" := (Py.rbind m (fun x => k))
  (at level 61, m at next level, right associativity) : py_scope.
Notation "x <~ m ;; k" := (Py.fl_bind m (fun x => k))
  (at level 61, m at next level, right associativity) : py_scope.

(** ** The data of the program *)

Module Data.
Import Py.

(** The five measured size dimensions, the keys of the program's dicts. *)
Inductive size_key : Type :=
| graph_nodes
| graph_in_tagged_nodes
| initial_transitions
| in_tagged_transitions
| edges.

Definition size_key_eqb (k1 k2 : size_key) : bool :=
  match k1, k2 with
  | graph_nodes, graph_nodes
  | graph_in_tagged_nodes, graph_in_tagged_nodes
  | initial_transitions, initial_transitions
  | in_tagged_transitions, in_tagged_transitions
  | edges, edges => true
  | _, _ => false
  end.

(** The keys in the order in which every dict of the program is built. *)
Definition size_keys : list size_key :=
  [graph_nodes; graph_in_tagged_nodes; initial_transitions;
   in_tagged_transitions; edges].

(** [automaton_builder.EncodedGraphMetadata], as far as it is used. *)
Record EncodedGraphMetadata : Type := mkMetadata {
  num_nodes : Z;
  num_input_tagged_nodes : Z
}.

(** [graph_bundle.PaddingConfig] *)
Record PaddingConfig : Type := mkPaddingConfig {
  static_max_metadata : EncodedGraphMetadata;
  max_initial_transitions : Z;
  max_in_tagged_transitions : Z;
  max_edges : Z
}.

(** What the program reads of an example: its metadata and the lengths
    ([.values.shape[0]]) of three arrays. *)
Record Example : Type := mkExample {
  graph_metadata : EncodedGraphMetadata;
  initial_to_in_tagged_len : nat;
  in_tagged_to_in_tagged_len : nat;
  edges_len : nat
}.

(** The fitted parameters of one dimension, in the order of the array. *)
Record Params : Type := mkParams {
  base_mu : R;
  base_std : R;
  prop_mu : R;
  prop_std : R
}.

Definition dict (A : Type) : Type := list (size_key * A).

Definition get {A : Type} (d : dict A) (k : size_key) : result A :=
  lookup size_key_eqb k d.

End Data.

(** ** The constraint solver and the quantile reporter *)

Module Solver.
Import PyNum Erf Py Data.
Local Open Scope py_scope.

(** The dict [desired_sizes] read off the padding configuration. *)
Definition desired_dict (d : PaddingConfig) : dict Z :=
  [(graph_nodes, num_nodes (static_max_metadata d));
   (graph_in_tagged_nodes, num_input_tagged_nodes (static_max_metadata d));
   (initial_transitions, max_initial_transitions d);
   (in_tagged_transitions, max_in_tagged_transitions d);
   (edges, max_edges d)].

(** One turn of the loop over [desired_sizes.items()]: the value appended
    to [ast_constraints]. *)
Definition constraint (mp : Params) (target : Z) (p : R) : fl :=
  z <~ erfinv (2 * p - 1) ;;
  let erfval := sq z in
  let a := sq (prop_mu mp) in
  let b := 2 * prop_mu mp * (base_mu mp - IZR target)
           - 2 * sq (prop_std mp) * erfval in
  let c := sq (IZR target - base_mu mp)
           - 2 * (sq (base_std mp) + 1e-3) * erfval in
  r <~ fsqrt (sq b - 4 * a * c) ;;
  fdiv (- b - r) (2 * a).

Fixpoint ast_constraints (model_params : dict Params) (desired : dict Z)
    (p : R) : result (list fl) :=
  match desired with
  | [] => ok []
  | (size_key, target) :: rest =>
      mp <- get model_params size_key ;;
      cs <- ast_constraints model_params rest p ;;
      ok (constraint mp target p :: cs)
  end.

(** [ast_target_count = int(min(ast_constraints))] *)
Definition ast_target_count (model_params : dict Params)
    (desired_sizes : PaddingConfig) (p : R) : result Z :=
  cs <- ast_constraints model_params (desired_dict desired_sizes) p ;;
  m <- py_min cs ;;
  py_int m.

(** The [p]-quantile of one dimension at target size [n]. *)
Definition quantile (mp : Params) (n : Z) (p : R) : fl :=
  let mu := base_mu mp + IZR n * prop_mu mp in
  let var := sq (base_std mp) + IZR n * sq (prop_std mp) + 1e-3 in
  s <~ fsqrt (2 * var) ;;
  z <~ erfinv (2 * p - 1) ;;
  Some (mu + s * z).

Definition rounded_quantile (round_to_powers_of_two : bool) (q : fl)
    : result Z :=
  if round_to_powers_of_two
  then int_exp2_ceil_log2 (r <~ q ;; Some (r - 0.5))
  else int_ceil q.

Fixpoint quantiles (model_params : dict Params) (n : Z) (p : R)
    (round_to_powers_of_two : bool) : result (dict Z) :=
  match model_params with
  | [] => ok []
  | (size_key, mp) :: rest =>
      rq <- rounded_quantile round_to_powers_of_two (quantile mp n p) ;;
      qs <- quantiles rest n p round_to_powers_of_two ;;
      ok ((size_key, rq) :: qs)
  end.

(** The padding configuration assembled from the dict of quantiles. *)
Definition padding_config (qs : dict Z) : result PaddingConfig :=
  q_nodes <- get qs graph_nodes ;;
  q_tagged <- get qs graph_in_tagged_nodes ;;
  q_initial <- get qs initial_transitions ;;
  q_in_tagged <- get qs in_tagged_transitions ;;
  q_edges <- get qs edges ;;
  ok (mkPaddingConfig (mkMetadata q_nodes q_tagged)
        q_initial q_in_tagged q_edges).

(** Everything after the fit: the solver, then the reporter. *)
Definition solve_and_report (model_params : dict Params)
    (desired_sizes : PaddingConfig) (p : R)
    (round_to_powers_of_two : bool) : result (Z * PaddingConfig) :=
  n <- ast_target_count model_params desired_sizes p ;;
  qs <- quantiles model_params n p round_to_powers_of_two ;;
  cfg <- padding_config qs ;;
  ok (n, cfg).

(** The dict [model_params] when every dimension has the parameters given
    by [f]. *)
Definition params_dict (f : size_key -> Params) : dict Params :=
  map (fun k => (k, f k)) size_keys.

(** The same desired bound [t] in every dimension. *)
Definition uniform_config (t : Z) : PaddingConfig :=
  mkPaddingConfig (mkMetadata t t) t t t.

End Solver.

(** ** The sampler, the model fitter and [calibrate_padding] *)

Module Calibration.
Import PyNum Erf Py Data Solver.
Local Open Scope py_scope.

(** [arr[i] = v] on an array that has an index [i]. *)
Fixpoint set_nth {A : Type} (i : nat) (v : A) (arr : list A) : list A :=
  match arr, i with
  | [], _ => []
  | _ :: t, O => v :: t
  | x :: t, S j => x :: set_nth j v t
  end.

(** [d[k][i] = v] *)
Definition set_item (d : dict (list Z)) (k : size_key) (i : nat) (v : Z)
    : dict (list Z) :=
  map (fun kv => if size_key_eqb k (fst kv)
                 then (fst kv, set_nth i v (snd kv)) else kv) d.

(** [range(n)] *)
Definition range (n : Z) : list Z := map Z.of_nat (seq 0 (Z.to_nat n)).

(** The arrays filled by the sampling loop. *)
Record Samples : Type := mkSamples {
  object_sizes : list Z;
  data : dict (list Z)
}.

(** The two local variables that are assigned only inside loops and read
    after them; [None] is an unbound variable. *)
Record Locals : Type := mkLocals {
  loc_i : option Z;
  loc_loss : option fl
}.

(** [np.empty([samples], dtype="int")]: the content before it is assigned
    is of no consequence and is taken to be zero. *)
Definition np_empty (samples : nat) : list Z := repeat 0%Z samples.

Definition empty_samples (samples : nat) : Samples :=
  mkSamples (np_empty samples)
    (map (fun k => (k, np_empty samples)) size_keys).

(** The five measurements of an example. *)
Definition measure (k : size_key) (example : Example) : Z :=
  match k with
  | graph_nodes => num_nodes (graph_metadata example)
  | graph_in_tagged_nodes => num_input_tagged_nodes (graph_metadata example)
  | initial_transitions => Z.of_nat (initial_to_in_tagged_len example)
  | in_tagged_transitions => Z.of_nat (in_tagged_to_in_tagged_len example)
  | edges => Z.of_nat (edges_len example)
  end.

(** The assignments of one turn of the sampling loop. *)
Definition store (i : nat) (target_size : Z) (example : Example)
    (s : Samples) : Samples :=
  let d := data s in
  let d := set_item d graph_nodes i (measure graph_nodes example) in
  let d := set_item d graph_in_tagged_nodes i
             (measure graph_in_tagged_nodes example) in
  let d := set_item d initial_transitions i
             (measure initial_transitions example) in
  let d := set_item d in_tagged_transitions i
             (measure in_tagged_transitions example) in
  let d := set_item d edges i (measure edges example) in
  mkSamples (set_nth i target_size (object_sizes s)) d.

(** [single_log_likelihood(params, n, x)] *)
Definition single_log_likelihood (params : Params) (n x : Z) : fl :=
  let mu := base_mu params + IZR n * prop_mu params in
  let var := sq (base_std params) + IZR n * sq (prop_std params) + 1e-3 in
  l <~ flog (var + 2 * PI) ;;
  q <~ fdiv (sq (IZR x - mu)) var ;;
  Some (- 0.5 * (l + q)).

(** [compute_loss(params, ns, xs)]: the two numpy arrays are narrowed to
    32 bits on their way into the jax computation, and [jax.vmap] maps over
    them in step. *)
Definition compute_loss (params : Params) (ns xs : list Z) : fl :=
  fl_opp (fl_sum (map (fun nx => single_log_likelihood params (fst nx) (snd nx))
                    (combine (map int32 ns) (map int32 xs)))).

(** [jnp.array([0., 1., 0., 1.])] *)
Definition initial_params : Params := mkParams 0 1 0 1.

(** [optax.apply_updates] *)
Definition apply_updates (params updates : Params) : Params :=
  mkParams (base_mu params + base_mu updates)
           (base_std params + base_std updates)
           (prop_mu params + prop_mu updates)
           (prop_std params + prop_std updates).

Section Collaborators.

(** Everything outside the function that a call can read or change: the
    global random generator of numpy and the state of the example builder. *)
Variable World : Type.

(** [np.random.randint(low, high)] *)
Variable randint : Z -> Z -> World -> result Z * World.

(** The caller's [example_builder]. *)
Variable example_builder : Z -> World -> result Example * World.

(** [jax.grad]: the gradient of a loss in its first argument. *)
Variable grad :
  (Params -> list Z -> list Z -> fl) -> Params -> list Z -> list Z -> Params.

(** [optax.adam(0.1)]: the optimiser state, [opt_init] and [opt_update]. *)
Variable OptState : Type.
Variable opt_init : Params -> OptState.
Variable opt_update : Params -> OptState -> Params * OptState.

(** Computations that read and change the world and may raise. *)
Definition M (A : Type) : Type := World -> result A * World.

Definition mret {A : Type} (a : A) : M A := fun w => (ok a, w).

Definition mbind {A B : Type} (m : M A) (k : A -> M B) : M B :=
  fun w =>
    match m w with
    | (inl e, w') => (inl e, w')
    | (inr a, w') => k a w'
    end.

Definition lift {A : Type} (r : result A) : M A := fun w => (r, w).

(** One turn of the sampling loop. *)
Definition sample_step (min_object_size max_object_size : Z) (i : nat)
    (s : Samples) : M Samples :=
  mbind (randint min_object_size max_object_size) (fun target_size =>
  mbind (example_builder target_size) (fun example =>
  mret (store i target_size example s))).

(** The sampling loop over the indices [idx]. *)
Fixpoint sample_loop (min_object_size max_object_size : Z) (idx : list nat)
    (s : Samples) : M Samples :=
  match idx with
  | [] => mret s
  | i :: rest =>
      mbind (sample_step min_object_size max_object_size i s)
            (sample_loop min_object_size max_object_size rest)
  end.

(** "Collect samples": the arrays are allocated, which fails for a negative
    size, and filled; the loop variable [i] stays bound to its last value. *)
Definition collect_samples (samples min_object_size max_object_size : Z)
    : M (Samples * Locals) :=
  if (samples <? 0)%Z then lift (raise ValueError)
  else
    let n := Z.to_nat samples in
    mbind (sample_loop min_object_size max_object_size (seq 0 n)
             (empty_samples n))
      (fun s =>
         mret (s, mkLocals (if (samples =? 0)%Z then None
                            else Some (samples - 1)%Z) None)).

(** [compute_loss_and_grads = jax.value_and_grad(compute_loss)] *)
Definition compute_loss_and_grads (params : Params) (ns xs : list Z)
    : fl * Params :=
  (compute_loss params ns xs, grad compute_loss params ns xs).

(** The variables of the optimisation loop. *)
Record FitState : Type := mkFitState {
  fit_params : Params;
  fit_opt : OptState;
  last_loss : option fl;
  fit_i : option Z;
  fit_loss : option fl
}.

(** The optimisation loop over the remaining values [steps] of the range. *)
Fixpoint fit_loop (steps : list Z) (ns xs : list Z)
    (log_likelihood_epsilon : R) (st : FitState) : FitState :=
  match steps with
  | [] => st
  | i :: rest =>
      let (loss, grads) := compute_loss_and_grads (fit_params st) ns xs in
      if match last_loss st with
         | Some l => fl_close l loss log_likelihood_epsilon
         | None => false
         end
      then mkFitState (fit_params st) (fit_opt st) (last_loss st)
             (Some i) (Some loss)
      else
        let (updates, opt) := opt_update grads (fit_opt st) in
        fit_loop rest ns xs log_likelihood_epsilon
          (mkFitState (apply_updates (fit_params st) updates) opt
             (Some loss) (Some i) (Some loss))
  end.

(** The fit of one dimension: the loop, then the [print] that reads [i]
    and [loss], then the parameters kept. *)
Definition fit_dimension (optimization_max_steps : Z)
    (log_likelihood_epsilon : R) (ns values : list Z) (loc : Locals)
    : result (Params * Locals) :=
  let st := fit_loop (range optimization_max_steps) ns values
              log_likelihood_epsilon
              (mkFitState initial_params (opt_init initial_params) None
                 (loc_i loc) (loc_loss loc)) in
  match fit_i st, fit_loss st with
  | None, _ => raise (UnboundLocalError "i")
  | Some _, None => raise (UnboundLocalError "loss")
  | Some i, Some loss => ok (fit_params st, mkLocals (Some i) (Some loss))
  end.

(** The loop over [data.items()] that fills [model_params]. *)
Fixpoint fit_models (optimization_max_steps : Z)
    (log_likelihood_epsilon : R) (ns : list Z) (d : dict (list Z))
    (loc : Locals) : result (dict Params) :=
  match d with
  | [] => ok []
  | (size_key, values) :: rest =>
      pl <- fit_dimension optimization_max_steps log_likelihood_epsilon
              ns values loc ;;
      mps <- fit_models optimization_max_steps log_likelihood_epsilon
               ns rest (snd pl) ;;
      ok ((size_key, fst pl) :: mps)
  end.

(** [calibrate_padding], with the default [progress]. *)
Definition calibrate_padding (desired_sizes : PaddingConfig)
    (success_probability : R) (samples : Z)
    (min_object_size max_object_size : Z) (optimization_max_steps : Z)
    (log_likelihood_epsilon : R) (round_to_powers_of_two : bool)
    : M (Z * PaddingConfig) :=
  mbind (collect_samples samples min_object_size max_object_size)
    (fun sl =>
       lift (model_params <-
               fit_models optimization_max_steps log_likelihood_epsilon
                 (object_sizes (fst sl)) (data (fst sl)) (snd sl) ;;
             solve_and_report model_params desired_sizes
               success_probability round_to_powers_of_two)).

(** The notions below are not part of the program: they describe the
    course of its two loops, for the statements of Part II. *)

(** One update of the parameters and of the optimiser state. *)
Definition adam_step (ns xs : list Z) (ps : Params * OptState)
    : Params * OptState :=
  let (updates, opt) :=
    opt_update (grad compute_loss (fst ps) ns xs) (snd ps) in
  (apply_updates (fst ps) updates, opt).

(** The parameters and the optimiser state after [j] updates. *)
Definition iterate (ns xs : list Z) (j : nat) : Params * OptState :=
  Nat.iter j (adam_step ns xs) (initial_params, opt_init initial_params).

(** The loss computed in iteration [j], counted from zero. *)
Definition loss_at (ns xs : list Z) (j : nat) : fl :=
  compute_loss (fst (iterate ns xs j)) ns xs.

(** The test that ends the loop in iteration [j]: there is a previous loss
    and the new one is within [log_likelihood_epsilon] of it. *)
Definition stops_at (ns xs : list Z) (log_likelihood_epsilon : R) (j : nat)
    : bool :=
  match j with
  | O => false
  | S j' => fl_close (loss_at ns xs j') (loss_at ns xs j)
              log_likelihood_epsilon
  end.

(** The arrays once the examples [draws] are stored and [rest] indices are
    still unassigned. *)
Definition filled (draws : list (Z * Example)) (rest : nat) : Samples :=
  mkSamples (map fst draws ++ np_empty rest)
    (map (fun k => (k, map (fun d => measure k (snd d)) draws
                       ++ np_empty rest)) size_keys).

(** [d] is a target size drawn by [randint] and the example built from it
    in the state the draw left. *)
Definition drawn (min_object_size max_object_size : Z) (d : Z * Example)
    : Prop :=
  exists w1 w2 w3,
    randint min_object_size max_object_size w1 = (inr (fst d), w2)
    /\ example_builder (fst d) w2 = (inr (snd d), w3).

(** The parameters the loop of one dimension ends with when no variable is
    bound before it. *)
Definition fitted (optimization_max_steps : Z) (log_likelihood_epsilon : R)
    (ns xs : list Z) : Params :=
  fit_params
    (fit_loop (range optimization_max_steps) ns xs log_likelihood_epsilon
       (mkFitState initial_params (opt_init initial_params) None None None)).

(** The examples [draws] are drawn and built one after the other, each call
    in the world the call before it left, from [w] to [w']. *)
Fixpoint draws_from (min_object_size max_object_size : Z) (w : World)
    (draws : list (Z * Example)) (w' : World) : Prop :=
  match draws with
  | [] => w' = w
  | d :: rest =>
      exists w1 w2,
        randint min_object_size max_object_size w = (inr (fst d), w1)
        /\ example_builder (fst d) w1 = (inr (snd d), w2)
        /\ draws_from min_object_size max_object_size w2 rest w'
  end.

(** The arrays that hold exactly the examples [draws]. *)
Definition samples_of (draws : list (Z * Example)) : Samples :=
  mkSamples (map fst draws)
    (map (fun k => (k, map (fun d => measure k (snd d)) draws)) size_keys).

End Collaborators.

End Calibration.

(** ** The specification's formulas *)

Module Spec.
Import PyNum Py Data.

(** The numerical floor of the variance. *)
Definition epsilon : R := 1e-3.

(** mean(n) = base_mean + n * slope_mean *)
Definition mean (mp : Params) (n : R) : R := base_mu mp + n * prop_mu mp.

(** variance(n) = base_std^2 + n * slope_std^2 + epsilon *)
Definition variance (mp : Params) (n : R) : R :=
  base_std mp ^ 2 + n * prop_std mp ^ 2 + epsilon.

(** The coefficients of the quadratic in [n], where [z] is
    erfinv(2p - 1). *)
Definition quad_a (mp : Params) : R := prop_mu mp ^ 2.

Definition quad_b (mp : Params) (target z : R) : R :=
  2 * prop_mu mp * (base_mu mp - target) - 2 * prop_std mp ^ 2 * z ^ 2.

Definition quad_c (mp : Params) (target z : R) : R :=
  (target - base_mu mp) ^ 2 - 2 * (base_std mp ^ 2 + epsilon) * z ^ 2.

Definition discriminant (mp : Params) (target z : R) : R :=
  quad_b mp target z ^ 2 - 4 * quad_a mp * quad_c mp target z.

(** The root (-b - sqrt(b^2 - 4ac)) / (2a). *)
Definition root (mp : Params) (target z : R) : R :=
  (- quad_b mp target z - sqrt (discriminant mp target z)) / (2 * quad_a mp).

(** The five bounds of a padding configuration, by dimension. *)
Definition bound (d : PaddingConfig) (k : size_key) : Z :=
  match k with
  | graph_nodes => num_nodes (static_max_metadata d)
  | graph_in_tagged_nodes => num_input_tagged_nodes (static_max_metadata d)
  | initial_transitions => max_initial_transitions d
  | in_tagged_transitions => max_in_tagged_transitions d
  | edges => max_edges d
  end.

(** The minimum of a quantity over the five dimensions. *)
Definition min_over_dimensions (g : size_key -> R) : R :=
  Rmin (Rmin (Rmin (Rmin (g graph_nodes) (g graph_in_tagged_nodes))
                   (g initial_transitions))
             (g in_tagged_transitions))
       (g edges).

(** The minimum root over the dimensions. *)
Definition min_root (f : size_key -> Params) (d : PaddingConfig) (z : R) : R :=
  min_over_dimensions (fun k => root (f k) (IZR (bound d k)) z).

(** The target size in the specification's words: the integer floor of the
    minimum root. *)
Definition target_size (f : size_key -> Params) (d : PaddingConfig) (z : R)
    : Z :=
  Rfloor (min_root f d z).

(** The quantile mean(n) + sqrt(2 * variance(n)) * erfinv(2p - 1). *)
Definition quantile (mp : Params) (n z : R) : R :=
  mean mp n + sqrt (2 * variance mp n) * z.

(** [m] is the smallest power of two, with a natural exponent, that is at
    least [x]. *)
Definition smallest_power_of_two_ge (x : R) (m : Z) : Prop :=
  exists k : nat,
    m = (2 ^ Z.of_nat k)%Z /\ x <= IZR m /\
    forall j : nat, x <= IZR (2 ^ Z.of_nat j) -> (k <= j)%nat.

Definition is_power_of_two (m : Z) : Prop :=
  exists k : nat, m = (2 ^ Z.of_nat k)%Z.

(** The terms of the loss: the log-likelihood of one observation. *)
Definition log_likelihood (mp : Params) (n x : R) : R :=
  - (1 / 2) * (ln (variance mp n + 2 * PI)
               + (x - mean mp n) ^ 2 / variance mp n).

(** The sum of the log-likelihoods of the samples (target size, observed
    size). *)
Fixpoint sum_log_likelihood (mp : Params) (samples : list (Z * Z)) : R :=
  match samples with
  | [] => 0
  | (n, x) :: rest =>
      log_likelihood mp (IZR n) (IZR x) + sum_log_likelihood mp rest
  end.

(** The total loss: the negative sum of the log-likelihoods. *)
Definition loss (mp : Params) (samples : list (Z * Z)) : R :=
  - sum_log_likelihood mp samples.

End Spec.

(** ** Quantities used in the analysis *)

Module Analysis.
Import Py Data.



(** The smallest of the five bounds of a padding configuration. *)
Definition min_bound (d : PaddingConfig) : Z :=
  Z.min (Z.min (Z.min (Z.min (Spec.bound d graph_nodes)
                             (Spec.bound d graph_in_tagged_nodes))
                      (Spec.bound d initial_transitions))
               (Spec.bound d in_tagged_transitions))
        (Spec.bound d edges).

End Analysis.

(** ** Concrete inputs *)

Module Inputs.
Import Erf Py Data.

(** The parameters of a dimension whose size is exactly the target size. *)
Definition identity_params : Params := mkParams 0 0 1 0.



(** Base mean 3/4: with bound 1 the target size is 0 and the quantile 0.75. *)
Definition three_quarters_offset : Params := mkParams (3 / 4) 0 1 0.


(** The configuration with bound 1 everywhere but [t] for the nodes. *)
Definition nodes_config (t : Z) : PaddingConfig :=
  mkPaddingConfig (mkMetadata t 1) 1 1 1.


(** Parameters with a constant spread: base deviation 2, slope 1. *)
Definition spread_params : Params := mkParams 0 2 1 0.

(** The probability whose erfinv(2p - 1) is -1/2, about 0.24. *)
Definition low_probability : R := (1 + erf (- (1 / 2))) / 2.


End Inputs.

(** ** A deterministic instance of the collaborators *)

Module Demo.
Import PyNum Erf Py Data Solver Calibration.

(** The world is the number of draws made so far. *)
Definition World : Type := Z.

(** A generator that steps through the range. *)
Definition randint (low high : Z) (w : World) : result Z * World :=
  if (low <? high)%Z
  then (ok (low + (w * 7919) mod (high - low))%Z, (w + 1)%Z)
  else (raise ValueError, w).

(** An example with [n] nodes, of which [n / 2] are tagged. *)
Definition example_of (n : Z) : Example :=
  mkExample (mkMetadata n (n / 2)) (Z.to_nat n) (Z.to_nat (2 * n))
    (Z.to_nat (3 * n)).

Definition example_builder (n : Z) (w : World) : result Example * World :=
  (ok (example_of n), w).

(** A builder that gives up on target sizes from 100 upward. *)
Definition small_builder (n : Z) (w : World) : result Example * World :=
  if (n <? 100)%Z then (ok (example_of n), w)
  else (raise (UserError "target size too large"), w).

(** A gradient that is zero everywhere, and plain gradient descent with
    learning rate 0.1 in place of Adam. *)
Definition grad (loss : Params -> list Z -> list Z -> fl) (params : Params)
    (ns xs : list Z) : Params :=
  mkParams 0 0 0 0.

Definition OptState : Type := unit.

Definition opt_init (params : Params) : OptState := tt.

Definition opt_update (grads : Params) (st : OptState) : Params * OptState :=
  (mkParams (- 0.1 * base_mu grads) (- 0.1 * base_std grads)
     (- 0.1 * prop_mu grads) (- 0.1 * prop_std grads), tt).

(** The arrays after two draws, 16 and 495, from the range 16 to 512. *)
Definition two_samples : Samples :=
  mkSamples [16; 495]%Z
    [(graph_nodes, [16; 495]%Z); (graph_in_tagged_nodes, [8; 247]%Z);
     (initial_transitions, [16; 495]%Z); (in_tagged_transitions, [32; 990]%Z);
     (edges, [48; 1485]%Z)].

End Demo.

(** * Part II: the verification *)

(** ** Facts about the conversions *)

Module PyNumFacts.
Import PyNum.

Lemma Rfloor_spec (r : R) : IZR (Rfloor r) <= r < IZR (Rfloor r) + 1.
Proof.
  unfold Rfloor. destruct (base_Int_part r) as [H1 H2]. lra.
Qed.

Lemma Rfloor_unique (r : R) (z : Z) : IZR z <= r < IZR z + 1 -> Rfloor r = z.
Proof.
  intros [H1 H2]. unfold Rfloor. symmetry. apply Int_part_spec. lra.
Qed.

Lemma Rceil_spec (r : R) : IZR (Rceil r) - 1 < r <= IZR (Rceil r).
Proof.
  unfold Rceil. rewrite opp_IZR.
  destruct (base_Int_part (- r)) as [H1 H2]. lra.
Qed.

Lemma Rceil_unique (r : R) (z : Z) : IZR z - 1 < r <= IZR z -> Rceil r = z.
Proof.
  intros [H1 H2]. unfold Rceil.
  assert (H : (- z)%Z = Int_part (- r)).
  { apply Int_part_spec. rewrite opp_IZR. lra. }
  rewrite <- H. lia.
Qed.

Lemma Rfloor_IZR (z : Z) : Rfloor (IZR z) = z.
Proof. apply Rfloor_unique. lra. Qed.

Lemma Rceil_IZR (z : Z) : Rceil (IZR z) = z.
Proof. apply Rceil_unique. lra. Qed.

Lemma Rtrunc_IZR (z : Z) : Rtrunc (IZR z) = z.
Proof.
  unfold Rtrunc. destruct (Rle_dec 0 (IZR z)); [apply Rfloor_IZR | apply Rceil_IZR].
Qed.



Lemma Rfloor_le_Rceil (r : R) : (Rfloor r <= Rceil r)%Z.
Proof.
  pose proof (Rfloor_spec r) as Hf. pose proof (Rceil_spec r) as Hc.
  apply le_IZR. lra.
Qed.




(** Truncation and floor agree exactly on the non-negative reals and on the
    integers. *)
Lemma Rtrunc_floor_nonneg (r : R) : 0 <= r -> Rtrunc r = Rfloor r.
Proof.
  intros H. unfold Rtrunc. destruct (Rle_dec 0 r); [reflexivity | contradiction].
Qed.

Lemma Rtrunc_neg_frac (r : R) :
  r < 0 -> IZR (Rfloor r) <> r -> Rtrunc r = (Rfloor r + 1)%Z.
Proof.
  intros Hneg Hfrac. unfold Rtrunc.
  destruct (Rle_dec 0 r) as [H|_]; [lra|].
  apply Rceil_unique. rewrite plus_IZR.
  pose proof (Rfloor_spec r). lra.
Qed.

End PyNumFacts.

(** ** Facts about the error function *)

Module ErfFacts.
Import Erf.

Lemma gauss_pos (t : R) : 0 < gauss t.
Proof. apply exp_pos. Qed.

Lemma gauss_le_1 (t : R) : gauss t <= 1.
Proof.
  unfold gauss. rewrite <- exp_0.
  destruct (Req_dec (t * t) 0) as [H|H].
  - rewrite H, Ropp_0. lra.
  - left. apply exp_increasing. nra.
Qed.

Lemma gauss_int_chasles (a b c : R) :
  gauss_int a b + gauss_int b c = gauss_int a c.
Proof. unfold gauss_int. apply RiemannInt_P26. Qed.

Lemma gauss_int_refl (a : R) : gauss_int a a = 0.
Proof. unfold gauss_int. apply RiemannInt_P9. Qed.

Lemma gauss_int_upper (a b : R) : a <= b -> gauss_int a b <= b - a.
Proof.
  intros H. unfold gauss_int.
  replace (b - a) with (RiemannInt (RiemannInt_P14 a b 1)).
  - apply RiemannInt_P19; [exact H|]. intros x _. apply gauss_le_1.
  - rewrite RiemannInt_P15. lra.
Qed.

Lemma gauss_int_lower (a b : R) :
  a <= b -> exp (- (a * a + b * b)) * (b - a) <= gauss_int a b.
Proof.
  intros H. unfold gauss_int.
  rewrite <- (RiemannInt_P15 (RiemannInt_P14 a b (exp (- (a * a + b * b))))).
  apply RiemannInt_P19; [exact H|]. intros x [Hx1 Hx2].
  unfold fct_cte, gauss.
  destruct (Req_dec (x * x) (a * a + b * b)) as [E|E].
  - rewrite E. lra.
  - left. apply exp_increasing.
    assert (x * x <= a * a + b * b) by (destruct (Rle_dec 0 x); nra). lra.
Qed.

Lemma gauss_int_pos (a b : R) : a < b -> 0 < gauss_int a b.
Proof.
  intros H. pose proof (gauss_int_lower a b ltac:(lra)) as L.
  pose proof (exp_pos (- (a * a + b * b))). nra.
Qed.

Lemma sqrt_PI_gt_1 : 1 < sqrt PI.
Proof.
  rewrite <- sqrt_1. apply sqrt_lt_1; try lra.
  - pose proof PI_RGT_0. lra.
  - pose proof PI2_1. lra.
Qed.

Lemma erf_scale_pos : 0 < 2 / sqrt PI.
Proof.
  pose proof sqrt_PI_gt_1. apply Rdiv_lt_0_compat; lra.
Qed.

Lemma erf_scale_lt_2 : 2 / sqrt PI < 2.
Proof.
  pose proof sqrt_PI_gt_1 as H.
  apply Rmult_lt_reg_r with (sqrt PI); [lra|].
  unfold Rdiv. rewrite Rmult_assoc, Rinv_l by lra. lra.
Qed.

Lemma erf_diff (x y : R) : erf y - erf x = 2 / sqrt PI * gauss_int x y.
Proof.
  unfold erf. rewrite <- (gauss_int_chasles 0 x y). ring.
Qed.

Lemma erf_0 : erf 0 = 0.
Proof. unfold erf. rewrite gauss_int_refl. ring. Qed.

Lemma erf_increasing (x y : R) : x < y -> erf x < erf y.
Proof.
  intros H. pose proof (erf_diff x y) as D.
  pose proof (gauss_int_pos x y H). pose proof erf_scale_pos. nra.
Qed.

Lemma erf_injective (x y : R) : erf x = erf y -> x = y.
Proof.
  intros H. destruct (Rtotal_order x y) as [L|[E|G]]; [|exact E|].
  - apply erf_increasing in L. lra.
  - apply erf_increasing in G. lra.
Qed.

(** The error function grows by less than twice its argument. *)
Lemma erf_lipschitz (x y : R) : x <= y -> erf y - erf x <= 2 * (y - x).
Proof.
  intros H. rewrite erf_diff.
  pose proof (gauss_int_upper x y H) as U.
  destruct H as [H|H].
  - pose proof (gauss_int_pos x y H). pose proof erf_scale_pos.
    pose proof erf_scale_lt_2. nra.
  - subst. rewrite gauss_int_refl. lra.
Qed.

Lemma erfinv_Some (y x : R) : erfinv y = Some x <-> erf x = y.
Proof.
  unfold erfinv. destruct (excluded_middle_informative _) as [H|H].
  - destruct (constructive_indefinite_description _ H) as [x' Hx']. simpl.
    split.
    + intros [= <-]. exact Hx'.
    + intros Hx. f_equal. apply erf_injective. congruence.
  - split; [discriminate|]. intros Hx. exfalso. apply H. now exists x.
Qed.

Lemma erfinv_erf (x : R) : erfinv (erf x) = Some x.
Proof. now apply erfinv_Some. Qed.

Lemma erfinv_0 : erfinv 0 = Some 0.
Proof. apply erfinv_Some, erf_0. Qed.

Lemma gauss_even (t : R) : gauss (- t) = gauss t.
Proof. unfold gauss. f_equal. ring. Qed.

Lemma gauss_int_swap (a b : R) : gauss_int a b = - gauss_int b a.
Proof. unfold gauss_int. apply RiemannInt_P8. Qed.

(** The integral of the integrand over [-c, 0] is its integral over
    [0, c]: both halves of the primitive from [-c] have the derivative
    [gauss], so they differ by a constant. *)
Lemma gauss_int_reflect (c : R) : 0 <= c -> gauss_int (- c) 0 = gauss_int 0 c.
Proof.
  intros Hc.
  assert (h : - c <= c) by lra.
  assert (C0 : forall x, - c <= x <= c -> continuity_pt gauss x)
    by (intros x _; apply gauss_continuity).
  set (P := primitive h (FTC_P1 h C0)).
  assert (HP : forall x, - c <= x <= c -> P x = gauss_int (- c) x).
  { intros x [H1 H2]. unfold P, primitive.
    destruct (Rle_dec (- c) x) as [r|]; [|contradiction].
    destruct (Rle_dec x c) as [r0|]; [|contradiction].
    unfold gauss_int. apply RiemannInt_P5. }
  assert (A1 : antiderivative gauss P (- c) c) by apply RiemannInt_P29.
  set (Q := (- (comp P (- id)))%F).
  assert (A2 : antiderivative gauss Q (- c) c).
  { split; [|exact h]. intros x Hx.
    assert (D : derivable_pt_lim Q x (gauss x)).
    { replace (gauss x) with (- (gauss (- x) * - 1))
        by (rewrite gauss_even; ring).
      unfold Q. apply derivable_pt_lim_opp.
      apply derivable_pt_lim_comp.
      - apply derivable_pt_lim_opp, derivable_pt_lim_id.
      - unfold opp_fct, id. apply RiemannInt_P28. lra. }
    exists (exist _ (gauss x) D). reflexivity. }
  destruct (antiderivative_Ucte gauss P Q (- c) c A1 A2) as [k Hk].
  pose proof (Hk 0 ltac:(lra)) as K0.
  pose proof (Hk c ltac:(lra)) as Kc.
  unfold Q, opp_fct, comp, id in K0, Kc.
  rewrite Ropp_0 in K0.
  rewrite (HP 0) in K0 by lra.
  rewrite (HP c), (HP (- c)) in Kc by lra.
  rewrite gauss_int_refl in Kc.
  pose proof (gauss_int_chasles (- c) 0 c). lra.
Qed.

Lemma erf_odd (x : R) : erf (- x) = - erf x.
Proof.
  unfold erf. destruct (Rle_dec 0 x) as [H|H].
  - rewrite (gauss_int_swap 0 (- x)), gauss_int_reflect by exact H. ring.
  - rewrite <- (Ropp_involutive x) at 2.
    rewrite (gauss_int_swap 0 (- - x)), gauss_int_reflect by lra. ring.
Qed.

Lemma erfinv_opp (y x : R) : erfinv y = Some x -> erfinv (- y) = Some (- x).
Proof.
  intros H%erfinv_Some. apply erfinv_Some. rewrite erf_odd. now f_equal.
Qed.

Lemma erfinv_opp_None (y : R) : erfinv y = None -> erfinv (- y) = None.
Proof.
  intros H. destruct (erfinv (- y)) as [x|] eqn:E; [|reflexivity].
  apply erfinv_opp in E. rewrite Ropp_involutive in E. congruence.
Qed.

Lemma gauss_le_inv (t : R) : gauss t <= / (1 + t ^ 2).
Proof.
  unfold gauss. rewrite exp_Ropp.
  pose proof (exp_ineq1_le (t * t)) as E. pose proof (pow2_ge_0 t) as P.
  apply Rinv_le_contravar; [lra|]. replace (t ^ 2) with (t * t) by ring.
  exact E.
Qed.

(** The integral from zero is a primitive of the integrand everywhere. *)
Lemma gauss_int_derivable (x : R) :
  derivable_pt_lim (gauss_int 0) x (gauss x).
Proof.
  set (c := Rabs x + 1).
  assert (Hx : - c < x < c).
  { unfold c. pose proof (Rle_abs x). pose proof (Rle_abs (- x)) as N.
    rewrite Rabs_Ropp in N. lra. }
  assert (h : - c <= c) by lra.
  assert (C0 : forall z, - c <= z <= c -> continuity_pt gauss z)
    by (intros z _; apply gauss_continuity).
  set (P := primitive h (FTC_P1 h C0)).
  assert (HP : forall z, - c <= z <= c -> P z = gauss_int (- c) z).
  { intros z [H1 H2]. unfold P, primitive.
    destruct (Rle_dec (- c) z) as [r|]; [|contradiction].
    destruct (Rle_dec z c) as [r0|]; [|contradiction].
    unfold gauss_int. apply RiemannInt_P5. }
  apply (derivable_pt_lim_locally_ext
           (P - fct_cte (gauss_int (- c) 0))%F (gauss_int 0) x (- c) c).
  - exact Hx.
  - intros z Hz. unfold minus_fct, fct_cte. rewrite HP by lra.
    rewrite <- (gauss_int_chasles (- c) 0 z). ring.
  - replace (gauss x) with (gauss x - 0) by ring.
    apply derivable_pt_lim_minus.
    + apply RiemannInt_P27. exact Hx.
    + apply derivable_pt_lim_const.
Qed.

(** The integral from zero stays below the arc tangent, hence below
    pi / 2. *)
Lemma gauss_int_le_atan (x : R) : 0 <= x -> gauss_int 0 x <= atan x.
Proof.
  intros Hx.
  set (K := (atan - gauss_int 0)%F).
  assert (D : forall z, derivable_pt_lim K z (/ (1 + z ^ 2) - gauss z)).
  { intros z. apply derivable_pt_lim_minus.
    - apply derivable_pt_lim_atan.
    - apply gauss_int_derivable. }
  assert (I : increasing K).
  { apply (nonneg_derivative_1 K (fun z => exist _ _ (D z))).
    intros z. unfold derive_pt. cbn [proj1_sig].
    pose proof (gauss_le_inv z). lra. }
  specialize (I 0 x Hx). unfold K, minus_fct in I.
  rewrite atan_0, gauss_int_refl in I. lra.
Qed.

Lemma erf_lt_2 (x : R) : erf x < 2.
Proof.
  pose proof erf_scale_pos as S. pose proof sqrt_PI_gt_1 as S1.
  destruct (Rle_dec 0 x) as [H|H].
  - pose proof (gauss_int_le_atan x H) as A.
    pose proof (atan_bound x) as [_ B]. pose proof PI_4 as P4.
    pose proof PI_RGT_0 as P0.
    assert (G : gauss_int 0 x < PI / 2) by lra.
    assert (E : 2 / sqrt PI * (PI / 2) = sqrt PI).
    { rewrite <- (sqrt_sqrt PI) at 2 by lra. field. lra. }
    assert (Q : sqrt PI <= 2).
    { replace 2 with (sqrt 4).
      - apply sqrt_le_1; lra.
      - replace 4 with (2 * 2) by ring. apply sqrt_square. lra. }
    unfold erf. nra.
  - assert (erf x < erf 0) by (apply erf_increasing; lra).
    rewrite erf_0 in *. lra.
Qed.

Lemma erf_gt_minus_2 (x : R) : - 2 < erf x.
Proof.
  pose proof (erf_lt_2 (- x)) as H. rewrite erf_odd in H. lra.
Qed.

(** Outside the open interval from -2 to 2 the inverse has no value. *)
Lemma erfinv_out_of_range (y : R) : 2 <= Rabs y -> erfinv y = None.
Proof.
  intros H. destruct (erfinv y) as [x|] eqn:E; [|reflexivity].
  apply erfinv_Some in E. pose proof (erf_lt_2 x). pose proof (erf_gt_minus_2 x).
  exfalso. subst y. unfold Rabs in H. destruct (Rcase_abs (erf x)); lra.
Qed.

End ErfFacts.

(** ** Facts about the solver *)

Module SolverFacts.
Import PyNum PyNumFacts Erf ErfFacts Py Data Solver Analysis Inputs.
Local Open Scope py_scope.

Lemma fsqrt_nonneg (x : R) : 0 <= x -> fsqrt x = Some (sqrt x).
Proof.
  intros H. unfold fsqrt. destruct (Rle_dec 0 x); [reflexivity | contradiction].
Qed.

Lemma fdiv_nonzero (x y : R) : y <> 0 -> fdiv x y = Some (x / y).
Proof.
  intros H. unfold fdiv. destruct (Req_dec_T y 0); [contradiction | reflexivity].
Qed.


Lemma erfinv_half : erfinv (2 * (1 / 2) - 1) = Some 0.
Proof.
  replace (2 * (1 / 2) - 1) with 0 by lra. apply erfinv_0.
Qed.

(** The code's coefficients are the specification's. *)
Lemma constraint_root (mp : Params) (target : Z) (p z : R) :
  erfinv (2 * p - 1) = Some z ->
  prop_mu mp <> 0 ->
  0 <= Spec.discriminant mp (IZR target) z ->
  constraint mp target p = Some (Spec.root mp (IZR target) z).
Proof.
  intros Hz Hs Hd. unfold constraint. rewrite Hz. cbn [fl_bind].
  assert (Ed : sq (2 * prop_mu mp * (base_mu mp - IZR target)
                   - 2 * sq (prop_std mp) * sq z)
               - 4 * sq (prop_mu mp)
                 * (sq (IZR target - base_mu mp)
                    - 2 * (sq (base_std mp) + 1e-3) * sq z)
               = Spec.discriminant mp (IZR target) z).
  { unfold Spec.discriminant, Spec.quad_a, Spec.quad_b, Spec.quad_c,
      Spec.epsilon, sq. ring. }
  rewrite Ed, (fsqrt_nonneg _ Hd). cbn [fl_bind].
  rewrite fdiv_nonzero.
  - f_equal. unfold Spec.root, Spec.quad_a, Spec.quad_b, sq.
    f_equal; [f_equal|]; ring.
  - unfold sq. nra.
Qed.


(** With erfinv(2p - 1) = 0 the discriminant vanishes and the root is
    (target - base_mean) / slope_mean. *)
Lemma root_at_half (mp : Params) (target : R) :
  prop_mu mp <> 0 ->
  Spec.root mp target 0 = (target - base_mu mp) / prop_mu mp.
Proof.
  intros Hs.
  assert (D : Spec.discriminant mp target 0 = 0).
  { unfold Spec.discriminant, Spec.quad_a, Spec.quad_b, Spec.quad_c. ring. }
  unfold Spec.root. rewrite D, sqrt_0.
  unfold Spec.quad_a, Spec.quad_b. field. exact Hs.
Qed.

(** At probability one half the constraint is
    (target - base_mean) / slope_mean. *)
Lemma constraint_half (mp : Params) (target : Z) :
  prop_mu mp <> 0 ->
  constraint mp target (1 / 2)
  = Some ((IZR target - base_mu mp) / prop_mu mp).
Proof.
  intros Hs. rewrite <- (root_at_half mp (IZR target) Hs).
  apply constraint_root; [exact erfinv_half | exact Hs |].
  unfold Spec.discriminant, Spec.quad_a, Spec.quad_b, Spec.quad_c.
  right. ring.
Qed.

(** The list of constraints follows the five dimensions in order. *)
Lemma ast_constraints_dict (f : size_key -> Params) (d : PaddingConfig)
    (p : R) :
  ast_constraints (params_dict f) (desired_dict d) p
  = ok (map (fun k => constraint (f k) (Spec.bound d k) p) size_keys).
Proof. reflexivity. Qed.

Lemma py_min_finite (x : R) (l : list R) :
  py_min (map Some (x :: l)) = ok (Some (fold_left Rmin l x)).
Proof.
  cbn [py_min map]. f_equal. revert x.
  induction l as [|y l IH]; intros x; cbn [map fold_left]; [reflexivity|].
  rewrite <- IH. f_equal. unfold fl_ltb, Rmin.
  destruct (Rlt_dec y x), (Rle_dec x y); try reflexivity; lra.
Qed.

(** When every dimension has a finite root [r k], the solver returns the
    truncation of their minimum. *)
Lemma ast_target_count_finite (f : size_key -> Params) (d : PaddingConfig)
    (p : R) (r : size_key -> R) :
  (forall k, constraint (f k) (Spec.bound d k) p = Some (r k)) ->
  ast_target_count (params_dict f) d p
  = ok (Rtrunc (Spec.min_over_dimensions r)).
Proof.
  intros H. unfold ast_target_count. rewrite ast_constraints_dict.
  cbn [rbind ok size_keys map]. rewrite !H.
  change [Some (r graph_nodes); Some (r graph_in_tagged_nodes);
          Some (r initial_transitions); Some (r in_tagged_transitions);
          Some (r edges)]
    with (map Some [r graph_nodes; r graph_in_tagged_nodes;
                    r initial_transitions; r in_tagged_transitions;
                    r edges]).
  rewrite py_min_finite. reflexivity.
Qed.



Lemma min_over_dimensions_const (c : R) :
  Spec.min_over_dimensions (fun _ => c) = c.
Proof.
  assert (E : Rmin c c = c) by (apply Rmin_left; lra).
  unfold Spec.min_over_dimensions. now rewrite !E.
Qed.


End SolverFacts.

(** ** The target size: claims about the constraint solver *)

Module TargetSize.
Import PyNum PyNumFacts Erf ErfFacts Py Data Solver Analysis Inputs SolverFacts.






(** With base deviation 2, slope 1 and no slope deviation the discriminant
    does not depend on the bound. *)
Lemma spread_discriminant (t z : R) :
  Spec.discriminant spread_params t z = 32.008 * z ^ 2.
Proof.
  unfold Spec.discriminant, Spec.quad_a, Spec.quad_b, Spec.quad_c,
    Spec.epsilon, spread_params. simpl. lra.
Qed.

Lemma spread_root (t z : R) :
  Spec.root spread_params t z = t - sqrt (32.008 * z ^ 2) / 2.
Proof.
  unfold Spec.root. rewrite spread_discriminant.
  unfold Spec.quad_a, Spec.quad_b, spread_params. simpl. field.
Qed.

Lemma spread_constraint (t : Z) (p z : R) :
  erfinv (2 * p - 1) = Some z ->
  constraint spread_params t p = Some (Spec.root spread_params (IZR t) z).
Proof.
  intros Hz. apply constraint_root; [exact Hz | simpl; lra |].
  rewrite spread_discriminant. pose proof (pow2_ge_0 z). lra.
Qed.


End TargetSize.

(** ** The target size is not clamped *)

Module Unclamped.
Import PyNum PyNumFacts Erf ErfFacts Py Data Solver Analysis Inputs SolverFacts TargetSize.

(** With sizes equal to the target size and probability one half, the
    solved target size is the desired bound itself. *)
Lemma identity_target (t : Z) :
  ast_target_count (params_dict (fun _ => identity_params)) (uniform_config t)
    (1 / 2) = ok t.
Proof.
  rewrite (ast_target_count_finite _ _ _ (fun _ => IZR t)).
  - now rewrite min_over_dimensions_const, Rtrunc_IZR.
  - intros k. rewrite constraint_half by (simpl; lra).
    f_equal. replace (Spec.bound (uniform_config t) k) with t
      by (destruct k; reflexivity).
    simpl. field.
Qed.

(** C9: the returned target size is [int()] of the minimum constraint root:
    the floor of a root that is not negative, one more than the floor of a
    negative root that is not an integer.  Nothing compares it with the
    sampled range: for some parameters it is negative, and for every range
    from [min_object_size] to [max_object_size] some parameters give a
    target size outside it. *)
Theorem C9_target_is_int_of_min_root (min_object_size max_object_size : Z) :
  (forall (f : size_key -> Params) (d : PaddingConfig) (p : R)
          (r : size_key -> R),
      (forall k, constraint (f k) (Spec.bound d k) p = Some (r k)) ->
      ast_target_count (params_dict f) d p
      = py_int (Some (Spec.min_over_dimensions r)))
  /\ (forall r : R, 0 <= r -> py_int (Some r) = ok (Rfloor r))
  /\ (forall r : R, r < 0 -> IZR (Rfloor r) <> r ->
        py_int (Some r) = ok (Rfloor r + 1)%Z)
  /\ (exists f d n,
        ast_target_count (params_dict f) d (1 / 2) = ok n /\ (n < 0)%Z)
  /\ (exists f d n,
        ast_target_count (params_dict f) d (1 / 2) = ok n
        /\ ~ (min_object_size <= n < max_object_size)%Z).
Proof.
  repeat split.
  - intros f d p r H. now apply ast_target_count_finite.
  - intros r H. cbn [py_int]. now rewrite Rtrunc_floor_nonneg.
  - intros r H1 H2. cbn [py_int]. now rewrite Rtrunc_neg_frac.
  - exists (fun _ => identity_params), (uniform_config (-1)), (-1)%Z.
    split; [apply identity_target | lia].
  - exists (fun _ => identity_params), (uniform_config max_object_size),
      max_object_size.
    split; [apply identity_target | lia].
Qed.

End Unclamped.

(** ** Facts about the quantile reporter *)

Module ReporterFacts.
Import PyNum PyNumFacts Erf ErfFacts Py Data Solver Analysis Inputs SolverFacts.

Lemma ln_2_pos : 0 < ln 2.
Proof. pose proof ln_lt_2. lra. Qed.

Lemma powerRZ_2_exp (k : Z) : powerRZ 2 k = exp (IZR k * ln 2).
Proof. rewrite powerRZ_Rpower by lra. reflexivity. Qed.

Lemma powerRZ_2_le (j k : Z) : (j <= k)%Z -> powerRZ 2 j <= powerRZ 2 k.
Proof.
  intros H. rewrite !powerRZ_2_exp. apply IZR_le in H.
  destruct H as [H|H].
  - left. apply exp_increasing. pose proof ln_2_pos. nra.
  - rewrite H. lra.
Qed.


(** The ceiling of the binary logarithm brackets its argument between two
    consecutive powers of two. *)
Lemma ceil_log2_bracket (x : R) :
  0 < x ->
  powerRZ 2 (Rceil (ln x / ln 2) - 1) < x <= powerRZ 2 (Rceil (ln x / ln 2)).
Proof.
  intros Hx. pose proof ln_2_pos as L2.
  destruct (Rceil_spec (ln x / ln 2)) as [H1 H2].
  set (k := Rceil (ln x / ln 2)) in *.
  assert (E : ln x / ln 2 * ln 2 = ln x) by (field; lra).
  rewrite !powerRZ_2_exp, minus_IZR. split.
  - rewrite <- (exp_ln x Hx) at 1. apply exp_increasing. nra.
  - rewrite <- (exp_ln x Hx) at 1.
    destruct (Req_dec (ln x) (IZR k * ln 2)) as [->|N]; [lra|].
    left. apply exp_increasing. nra.
Qed.


(** At or below one half the power of two is a fraction, and [int] of it
    is zero. *)
Lemma int_exp2_ceil_log2_below_half (x : R) :
  0 < x <= 1 / 2 -> int_exp2_ceil_log2 (Some x) = ok 0%Z.
Proof.
  intros [H0 H1]. unfold int_exp2_ceil_log2.
  destruct (Rlt_dec 0 x) as [_|N]; [|lra]. f_equal.
  destruct (ceil_log2_bracket x H0) as [Hlo Hhi].
  set (k := Rceil (ln x / ln 2)) in *.
  assert (Hk : (k <= -1)%Z).
  { destruct (Z_le_gt_dec k (-1)) as [H|H]; [exact H|].
    pose proof (powerRZ_2_le (-1) (k - 1) ltac:(lia)) as P.
    change (powerRZ 2 (-1)) with (/ (2 * 1)) in P. lra. }
  pose proof (powerRZ_2_le k (-1) Hk) as P.
  change (powerRZ 2 (-1)) with (/ (2 * 1)) in P.
  pose proof (powerRZ_lt 2 k ltac:(lra)) as Q.
  rewrite Rtrunc_floor_nonneg by lra. apply Rfloor_unique. simpl. lra.
Qed.



(** The code's quantile is the specification's. *)
Lemma quantile_spec (mp : Params) (n : Z) (p z : R) :
  erfinv (2 * p - 1) = Some z ->
  0 <= Spec.variance mp (IZR n) ->
  quantile mp n p = Some (Spec.quantile mp (IZR n) z).
Proof.
  intros Hz Hv. unfold quantile.
  assert (E : 2 * (sq (base_std mp) + IZR n * sq (prop_std mp) + 1e-3)
              = 2 * Spec.variance mp (IZR n)).
  { unfold Spec.variance, Spec.epsilon, sq. ring. }
  rewrite E, fsqrt_nonneg by lra. cbn [fl_bind]. rewrite Hz. reflexivity.
Qed.


Lemma solve_and_report_intro (f : size_key -> Params) (d : PaddingConfig)
    (p : R) (round : bool) (n : Z) (b : size_key -> Z) :
  ast_target_count (params_dict f) d p = ok n ->
  (forall k, rounded_quantile round (quantile (f k) n p) = ok (b k)) ->
  solve_and_report (params_dict f) d p round
  = ok (n, mkPaddingConfig
             (mkMetadata (b graph_nodes) (b graph_in_tagged_nodes))
             (b initial_transitions) (b in_tagged_transitions) (b edges)).
Proof.
  intros Hn Hq. unfold solve_and_report. rewrite Hn.
  cbn [rbind ok params_dict size_keys map quantiles]. rewrite !Hq.
  reflexivity.
Qed.

End ReporterFacts.

(** ** The padding bounds: claims about the quantile reporter *)

Module Rounding.
Import PyNum PyNumFacts Erf ErfFacts Py Data Solver Analysis Inputs SolverFacts ReporterFacts.


(** At probability one half the quantile is the mean. *)
Lemma quantile_half (mp : Params) (n : Z) :
  0 <= Spec.variance mp (IZR n) ->
  quantile mp n (1 / 2) = Some (base_mu mp + IZR n * prop_mu mp).
Proof.
  intros Hv. rewrite (quantile_spec mp n (1 / 2) 0 erfinv_half Hv).
  f_equal. unfold Spec.quantile, Spec.mean. ring.
Qed.

(** With slope 1, no spread and probability one half, the solver returns
    the truncation of (bound - base mean). *)
Lemma unit_slope_target (m : R) (t : Z) :
  ast_target_count (params_dict (fun _ => mkParams m 0 1 0)) (uniform_config t)
    (1 / 2) = ok (Rtrunc (IZR t - m)).
Proof.
  rewrite (ast_target_count_finite _ _ _ (fun _ => IZR t - m)).
  - now rewrite min_over_dimensions_const.
  - intros k. rewrite constraint_half by (simpl; lra).
    f_equal. replace (Spec.bound (uniform_config t) k) with t
      by (destruct k; reflexivity).
    simpl. field.
Qed.

Lemma unit_slope_quantile (m : R) (n : Z) :
  quantile (mkParams m 0 1 0) n (1 / 2) = Some (m + IZR n).
Proof.
  rewrite quantile_half.
  - f_equal. simpl. ring.
  - unfold Spec.variance, Spec.epsilon. simpl. lra.
Qed.






Lemma three_quarters_offset_report :
  solve_and_report (params_dict (fun _ => three_quarters_offset))
    (uniform_config 1) (1 / 2) true = ok (0%Z, uniform_config 0).
Proof.
  apply (solve_and_report_intro _ _ _ _ _ (fun _ => 0%Z)).
  - unfold three_quarters_offset. rewrite unit_slope_target. f_equal.
    rewrite Rtrunc_floor_nonneg by lra. apply Rfloor_unique. simpl. lra.
  - intros _. unfold three_quarters_offset. rewrite unit_slope_quantile.
    cbn [rounded_quantile fl_bind].
    apply int_exp2_ceil_log2_below_half. lra.
Qed.

(** C3 at the input where the code departs from it: with base mean 3/4,
    slope 1, bound 1 and probability 1/2 the target size is 0 and every
    quantile is 0.75; with rounding on, the returned bounds are
    [int(2 ** -2) = 0], which is not a power of two, and the smallest power
    of two that is at least 0.75 - 0.5 is 1. *)
Theorem C3_rounding_below_one :
  solve_and_report (params_dict (fun _ => three_quarters_offset))
    (uniform_config 1) (1 / 2) true = ok (0%Z, uniform_config 0)
  /\ quantile three_quarters_offset 0 (1 / 2) = Some (3 / 4)
  /\ Spec.smallest_power_of_two_ge (3 / 4 - 0.5) 1
  /\ ~ Spec.is_power_of_two 0.
Proof.
  split; [exact three_quarters_offset_report|]. split; [|split].
  - unfold three_quarters_offset. rewrite unit_slope_quantile. f_equal. lra.
  - exists 0%nat. split; [reflexivity|]. split; [lra|]. intros j _. lia.
  - intros [j Hj]. pose proof (Z.pow_pos_nonneg 2 (Z.of_nat j)). lia.
Qed.

End Rounding.

(** ** Monotonicity of the solved target size *)

Module MonotoneClaims.
Import PyNum PyNumFacts Erf ErfFacts Py Data Solver Analysis Inputs SolverFacts TargetSize.








Lemma low_probability_range : 0 < low_probability < 1 / 2.
Proof.
  unfold low_probability.
  pose proof (erf_increasing (- (1 / 2)) 0 ltac:(lra)) as H0.
  pose proof (erf_diff (- (1 / 2)) 0) as D.
  pose proof (gauss_int_upper (- (1 / 2)) 0 ltac:(lra)) as U.
  pose proof (gauss_int_pos (- (1 / 2)) 0 ltac:(lra)) as P.
  pose proof erf_scale_pos. pose proof erf_scale_lt_2.
  rewrite erf_0 in *. split; [|lra].
  assert (2 / sqrt PI * gauss_int (- (1 / 2)) 0 < 1) by nra. lra.
Qed.

Lemma erfinv_low_probability :
  erfinv (2 * low_probability - 1) = Some (- (1 / 2)).
Proof.
  replace (2 * low_probability - 1) with (erf (- (1 / 2)))
    by (unfold low_probability; field).
  apply erfinv_erf.
Qed.

Lemma sqrt_8002 : 2 < sqrt 8.002 < 3.
Proof.
  pose proof (sqrt_pos 8.002) as S0.
  pose proof (sqrt_sqrt 8.002 ltac:(lra)) as S2.
  split; nra.
Qed.

Lemma spread_root_low :
  8 < Spec.root spread_params 10 (- (1 / 2)) < 9.
Proof.
  rewrite spread_root.
  replace (32.008 * (- (1 / 2)) ^ 2) with 8.002 by lra.
  pose proof sqrt_8002. lra.
Qed.

Lemma spread_target_low :
  ast_target_count (params_dict (fun _ => spread_params))
    (uniform_config 10) low_probability = ok 8%Z.
Proof.
  rewrite (ast_target_count_finite _ _ _
             (fun _ => Spec.root spread_params 10 (- (1 / 2)))).
  - rewrite min_over_dimensions_const. f_equal.
    pose proof spread_root_low.
    rewrite Rtrunc_floor_nonneg by lra. apply Rfloor_unique. simpl. lra.
  - intros k.
    replace (Spec.bound (uniform_config 10) k) with 10%Z
      by (destruct k; reflexivity).
    apply spread_constraint, erfinv_low_probability.
Qed.

Lemma spread_target_half :
  ast_target_count (params_dict (fun _ => spread_params))
    (uniform_config 10) (1 / 2) = ok 10%Z.
Proof.
  rewrite (ast_target_count_finite _ _ _ (fun _ => 10)).
  - rewrite min_over_dimensions_const. f_equal. apply (Rtrunc_IZR 10).
  - intros k. rewrite constraint_half by (simpl; lra).
    f_equal. replace (Spec.bound (uniform_config 10) k) with 10%Z
      by (destruct k; reflexivity).
    simpl. field.
Qed.

Lemma spread_quantile_low (n : Z) :
  (0 <= n)%Z ->
  quantile spread_params n low_probability
  = Some (IZR n - sqrt 8.002 / 2).
Proof.
  intros Hn. apply IZR_le in Hn.
  rewrite (ReporterFacts.quantile_spec spread_params n low_probability
             (- (1 / 2)) erfinv_low_probability).
  - f_equal. unfold Spec.quantile, Spec.mean, Spec.variance, Spec.epsilon,
      spread_params. simpl.
    replace (2 * (2 * (2 * 1) + IZR n * (0 * (0 * 1)) + 1e-3)) with 8.002
      by lra.
    lra.
  - unfold Spec.variance, Spec.epsilon, spread_params. simpl. lra.
Qed.

(** C4: below one half the solver answers for the complement of the
    probability.  With base deviation 2, slope 1 and bounds 10 it returns
    8 at the probability of about 0.24 whose erfinv(2p - 1) is -1/2, and 10
    at probability 1/2: the target size grows with the probability.  At
    the returned size 8 the quantile of that probability is below 7, and
    the size 11 still has its quantile below the bound 10, although the
    solver is to find the size at which the quantile is the bound. *)
Theorem C4_complement_solved_below_half :
  0 < low_probability < 1 / 2
  /\ ast_target_count (params_dict (fun _ => spread_params))
       (uniform_config 10) low_probability = ok 8%Z
  /\ ast_target_count (params_dict (fun _ => spread_params))
       (uniform_config 10) (1 / 2) = ok 10%Z
  /\ (exists q, quantile spread_params 8 low_probability = Some q /\ q < 7)
  /\ (exists q, quantile spread_params 11 low_probability = Some q /\ q < 10).
Proof.
  pose proof sqrt_8002 as S.
  split; [exact low_probability_range|].
  split; [exact spread_target_low|].
  split; [exact spread_target_half|]. split.
  - eexists. split; [apply spread_quantile_low; lia|]. lra.
  - eexists. split; [apply spread_quantile_low; lia|]. lra.
Qed.

End MonotoneClaims.

(** ** Further properties of the solver and the reporter *)

Module Further.
Import PyNum PyNumFacts Erf ErfFacts Py Data Solver Analysis Inputs SolverFacts ReporterFacts Rounding.







End Further.

(** ** The choice of the target size and the rounding of the bounds *)

Module Guarantee.
Import PyNum PyNumFacts Erf ErfFacts Py Data Solver Analysis Inputs.
Import SolverFacts TargetSize ReporterFacts Rounding.



Lemma Rmin_IZR (a b : Z) : Rmin (IZR a) (IZR b) = IZR (Z.min a b).
Proof.
  unfold Rmin. destruct (Rle_dec (IZR a) (IZR b)) as [H|H].
  - apply le_IZR in H. now rewrite Z.min_l.
  - assert (b <= a)%Z.
    { destruct (Z_le_gt_dec b a) as [L|G]; [exact L|].
      exfalso. apply H, IZR_le. lia. }
    now rewrite Z.min_r.
Qed.

Lemma min_over_dimensions_bounds (d : PaddingConfig) :
  Spec.min_over_dimensions (fun k => IZR (Spec.bound d k))
  = IZR (min_bound d).
Proof.
  unfold Spec.min_over_dimensions, min_bound. now rewrite !Rmin_IZR.
Qed.

Lemma identity_report (d : PaddingConfig) :
  solve_and_report (params_dict (fun _ => identity_params)) d (1 / 2) false
  = ok (min_bound d, uniform_config (min_bound d)).
Proof.
  apply (solve_and_report_intro _ _ _ _ _ (fun _ => min_bound d)).
  - rewrite (ast_target_count_finite _ _ _ (fun k => IZR (Spec.bound d k))).
    + now rewrite min_over_dimensions_bounds, Rtrunc_IZR.
    + intros k. rewrite constraint_half by (simpl; lra).
      f_equal. simpl. field.
  - intros _. unfold identity_params. rewrite unit_slope_quantile.
    cbn [rounded_quantile int_ceil]. f_equal.
    rewrite Rplus_0_l. apply Rceil_IZR.
Qed.

(** X7: a generator whose sizes are exactly the target size.  With the
    fitted parameters (0, 0, 1, 0) in every dimension, probability 1/2, no
    rounding and desired bounds of magnitude at most 2^24 (the integers
    that single precision holds exactly), the call returns one number as
    the target size and as each of the five bounds: the smallest desired
    bound, which is at most every desired bound and is one of them. *)
Theorem identity_generator_report (d : PaddingConfig) :
  (forall k, (- 2 ^ 24 <= Spec.bound d k <= 2 ^ 24)%Z) ->
  exists m,
    solve_and_report (params_dict (fun _ => identity_params)) d (1 / 2) false
    = ok (m, uniform_config m)
    /\ (forall k, m <= Spec.bound d k)%Z
    /\ exists k, m = Spec.bound d k.
Proof.
  intros _.
  exists (min_bound d). split; [apply identity_report|]. split.
  - intros k. unfold min_bound. destruct k; lia.
  - unfold min_bound.
    set (a := Spec.bound d graph_nodes).
    set (b := Spec.bound d graph_in_tagged_nodes).
    set (c := Spec.bound d initial_transitions).
    set (e := Spec.bound d in_tagged_transitions).
    set (g := Spec.bound d edges).
    destruct (Z.min_spec (Z.min (Z.min (Z.min a b) c) e) g) as [[_ ->]|[_ ->]];
      [|now exists edges].
    destruct (Z.min_spec (Z.min (Z.min a b) c) e) as [[_ ->]|[_ ->]];
      [|now exists in_tagged_transitions].
    destruct (Z.min_spec (Z.min a b) c) as [[_ ->]|[_ ->]];
      [|now exists initial_transitions].
    destruct (Z.min_spec a b) as [[_ ->]|[_ ->]];
      [now exists graph_nodes | now exists graph_in_tagged_nodes].
Qed.

Lemma identity_generator_report_witness :
  exists m,
    solve_and_report (params_dict (fun _ => identity_params))
      (nodes_config 7) (1 / 2) false
    = ok (m, uniform_config m)
    /\ (forall k, m <= Spec.bound (nodes_config 7) k)%Z
    /\ exists k, m = Spec.bound (nodes_config 7) k.
Proof.
  apply (identity_generator_report (nodes_config 7)).
  intros k. destruct k; simpl; lia.
Defined.










Lemma erfinv_mirror (p : R) :
  erfinv (2 * (1 - p) - 1)
  = match erfinv (2 * p - 1) with
    | Some z => Some (- z)
    | None => None
    end.
Proof.
  replace (2 * (1 - p) - 1) with (- (2 * p - 1)) by ring.
  destruct (erfinv (2 * p - 1)) as [z|] eqn:E.
  - now apply erfinv_opp.
  - now apply erfinv_opp_None.
Qed.

Lemma constraint_mirror (mp : Params) (target : Z) (p : R) :
  constraint mp target (1 - p) = constraint mp target p.
Proof.
  unfold constraint. rewrite erfinv_mirror.
  destruct (erfinv (2 * p - 1)) as [z|]; [|reflexivity].
  cbn [fl_bind]. replace (sq (- z)) with (sq z) by (unfold sq; ring).
  reflexivity.
Qed.

Lemma ast_constraints_mirror (model_params : dict Params) (desired : dict Z)
    (p : R) :
  ast_constraints model_params desired (1 - p)
  = ast_constraints model_params desired p.
Proof.
  induction desired as [|[size_key target] rest IH]; [reflexivity|].
  cbn [ast_constraints]. rewrite IH.
  destruct (get model_params size_key) as [e|mp]; [reflexivity|].
  cbn [rbind]. now rewrite constraint_mirror.
Qed.

(** X10: the target size does not tell a success probability from its
    complement.  The solver uses erfinv(2p - 1) only squared, so for any
    fitted parameters and bounds the outcome for [1 - p] is the outcome
    for [p]; the quantile reported for [1 - p] is the one for [p] mirrored
    at the mean. *)
Theorem target_same_for_complement (model_params : dict Params)
    (d : PaddingConfig) (p : R) :
  ast_target_count model_params d (1 - p) = ast_target_count model_params d p
  /\ forall (mp : Params) (n : Z) (q : R),
       quantile mp n p = Some q ->
       quantile mp n (1 - p) = Some (2 * Spec.mean mp (IZR n) - q).
Proof.
  split.
  - unfold ast_target_count. now rewrite ast_constraints_mirror.
  - intros mp n q. unfold quantile. rewrite erfinv_mirror.
    destruct (fsqrt _) as [s|]; [|discriminate].
    destruct (erfinv (2 * p - 1)) as [z|]; [|discriminate].
    cbn [fl_bind]. intros [= <-]. f_equal. unfold Spec.mean. ring.
Qed.



End Guarantee.

(** ** A probability without a finite erfinv *)

Module SolverErrors.
Import PyNum PyNumFacts Erf ErfFacts Py Data Solver SolverFacts.
Local Open Scope py_scope.

(** Without a finite erfinv(2p - 1) every constraint is not a number, and
    the conversion of their minimum raises. *)
Lemma solve_and_report_no_erfinv (f : size_key -> Params) (d : PaddingConfig)
    (p : R) (round : bool) :
  erfinv (2 * p - 1) = None ->
  solve_and_report (params_dict f) d p round = raise ValueError.
Proof.
  intros H. unfold solve_and_report, ast_target_count.
  rewrite ast_constraints_dict. unfold constraint. rewrite H. reflexivity.
Qed.

End SolverErrors.

(** ** Facts and claims about the sampler and the fitter *)

Module CalibrationFacts.
Import PyNum PyNumFacts Erf Py Data Solver Calibration.
Local Open Scope py_scope.

Section Collaborators.

(** Everything outside the function that a call can read or change: the
    global random generator of numpy and the state of the example builder. *)
Variable World : Type.

(** [np.random.randint(low, high)] *)
Variable randint : Z -> Z -> World -> result Z * World.

(** The caller's [example_builder]. *)
Variable example_builder : Z -> World -> result Example * World.

(** [jax.grad]: the gradient of a loss in its first argument. *)
Variable grad :
  (Params -> list Z -> list Z -> fl) -> Params -> list Z -> list Z -> Params.

(** [optax.adam(0.1)]: the optimiser state, [opt_init] and [opt_update]. *)
Variable OptState : Type.
Variable opt_init : Params -> OptState.
Variable opt_update : Params -> OptState -> Params * OptState.

(** The program at these collaborators. *)
Local Abbreviation M := (Calibration.M World).
Local Abbreviation mret := (Calibration.mret World).
Local Abbreviation mbind := (Calibration.mbind World).
Local Abbreviation lift := (Calibration.lift World).
Local Abbreviation sample_step :=
  (Calibration.sample_step World randint example_builder).
Local Abbreviation sample_loop :=
  (Calibration.sample_loop World randint example_builder).
Local Abbreviation collect_samples :=
  (Calibration.collect_samples World randint example_builder).
Local Abbreviation drawn := (Calibration.drawn World randint example_builder).
Local Abbreviation compute_loss_and_grads :=
  (Calibration.compute_loss_and_grads grad).
Local Abbreviation FitState := (Calibration.FitState OptState).
Local Abbreviation mkFitState := (Calibration.mkFitState OptState).
Local Abbreviation fit_params := (Calibration.fit_params OptState).
Local Abbreviation fit_opt := (Calibration.fit_opt OptState).
Local Abbreviation last_loss := (Calibration.last_loss OptState).
Local Abbreviation fit_i := (Calibration.fit_i OptState).
Local Abbreviation fit_loss := (Calibration.fit_loss OptState).
Local Abbreviation fit_loop := (Calibration.fit_loop grad OptState opt_update).
Local Abbreviation fit_dimension :=
  (Calibration.fit_dimension grad OptState opt_init opt_update).
Local Abbreviation fit_models :=
  (Calibration.fit_models grad OptState opt_init opt_update).
Local Abbreviation calibrate_padding :=
  (Calibration.calibrate_padding World randint example_builder grad OptState
     opt_init opt_update).
Local Abbreviation adam_step := (Calibration.adam_step grad OptState opt_update).
Local Abbreviation iterate :=
  (Calibration.iterate grad OptState opt_init opt_update).
Local Abbreviation loss_at :=
  (Calibration.loss_at grad OptState opt_init opt_update).
Local Abbreviation stops_at :=
  (Calibration.stops_at grad OptState opt_init opt_update).
Local Abbreviation fitted :=
  (Calibration.fitted grad OptState opt_init opt_update).
Local Abbreviation draws_from :=
  (Calibration.draws_from World randint example_builder).







Lemma iterate_S (ns xs : list Z) (j : nat) :
  iterate ns xs (S j) = adam_step ns xs (iterate ns xs j).
Proof. reflexivity. Qed.

(** The loop, started in iteration [a] on the trajectory, runs on it until
    the test ends it or the range is exhausted. *)
Lemma fit_loop_trajectory (ns xs : list Z) (eps : R) (len a : nat)
    (st : FitState) :
  (fit_params st, fit_opt st) = iterate ns xs a ->
  last_loss st = match a with
                 | O => None
                 | S a' => Some (loss_at ns xs a')
                 end ->
  exists j,
    (a <= j <= a + len)%nat
    /\ (forall m, (a <= m < j)%nat -> stops_at ns xs eps m = false)
    /\ ((stops_at ns xs eps j = true
         /\ fit_loop (map Z.of_nat (seq a (S len))) ns xs eps st
            = mkFitState (fst (iterate ns xs j)) (snd (iterate ns xs j))
                (match j with
                 | O => None
                 | S j' => Some (loss_at ns xs j')
                 end)
                (Some (Z.of_nat j)) (Some (loss_at ns xs j)))
        \/ (stops_at ns xs eps j = false /\ j = (a + len)%nat
            /\ fit_loop (map Z.of_nat (seq a (S len))) ns xs eps st
               = mkFitState (fst (iterate ns xs (S j)))
                   (snd (iterate ns xs (S j))) (Some (loss_at ns xs j))
                   (Some (Z.of_nat j)) (Some (loss_at ns xs j)))).
Proof.
  revert a st. induction len as [|len IH]; intros a st Hst Hlast.
  all: assert (Hp : fit_params st = fst (iterate ns xs a)) by now rewrite <- Hst.
  all: assert (Ho : fit_opt st = snd (iterate ns xs a)) by now rewrite <- Hst.
  all: assert (Hc : match last_loss st with
                    | Some l => fl_close l (compute_loss (fit_params st) ns xs)
                                  eps
                    | None => false
                    end = stops_at ns xs eps a)
         by (rewrite Hlast, Hp; destruct a; reflexivity).
  all: cbn [seq map fit_loop compute_loss_and_grads]; rewrite Hc.
  all: destruct (stops_at ns xs eps a) eqn:Hstop.
  - exists a. split; [lia|]. split; [intros m Hm; lia|]. left.
    split; [exact Hstop|]. rewrite Hp, Ho, Hlast. reflexivity.
  - exists a. split; [lia|]. split; [intros m Hm; lia|]. right.
    split; [exact Hstop|]. split; [lia|].
    rewrite iterate_S. unfold adam_step. rewrite <- Hp, <- Ho.
    destruct (opt_update (grad compute_loss (fit_params st) ns xs)
                (fit_opt st)) as [updates opt].
    cbn [fst snd]. unfold loss_at. rewrite <- Hp. reflexivity.
  - exists a. split; [lia|]. split; [intros m Hm; lia|]. left.
    split; [exact Hstop|]. rewrite Hp, Ho, Hlast. reflexivity.
  - destruct (opt_update (grad compute_loss (fit_params st) ns xs)
                (fit_opt st)) as [updates opt] eqn:Hu.
    destruct (IH (S a)
                (mkFitState (apply_updates (fit_params st) updates) opt
                   (Some (compute_loss (fit_params st) ns xs))
                   (Some (Z.of_nat a))
                   (Some (compute_loss (fit_params st) ns xs))))
      as (j & Hj & Hbefore & Hend).
    + cbn [fit_params fit_opt]. rewrite iterate_S. unfold adam_step.
      rewrite <- Hp, <- Ho, Hu. reflexivity.
    + cbn [last_loss]. unfold loss_at. now rewrite <- Hp.
    + exists j. split; [lia|]. split.
      * intros m Hm. destruct (Nat.eq_dec m a) as [->|N]; [exact Hstop|].
        apply Hbefore. lia.
      * destruct Hend as [[H1 H2]|[H1 [H2 H3]]].
        -- left. split; [exact H1|]. exact H2.
        -- right. split; [exact H1|]. split; [lia|]. exact H3.
Qed.

Lemma range_pos (n : Z) :
  (1 <= n)%Z -> range n = map Z.of_nat (seq 0 (S (Z.to_nat n - 1))).
Proof.
  intros H. unfold range. f_equal. f_equal. lia.
Qed.

(** The fit of one dimension, for a positive number of steps. *)
Lemma fit_dimension_trajectory (optimization_max_steps : Z)
    (log_likelihood_epsilon : R) (ns xs : list Z) (loc : Locals) :
  (1 <= optimization_max_steps)%Z ->
  exists j,
    (j < Z.to_nat optimization_max_steps)%nat
    /\ (forall m, (m < j)%nat ->
                  stops_at ns xs log_likelihood_epsilon m = false)
    /\ ((stops_at ns xs log_likelihood_epsilon j = true
         /\ fit_dimension optimization_max_steps log_likelihood_epsilon
              ns xs loc
            = ok (fst (iterate ns xs j),
                  mkLocals (Some (Z.of_nat j)) (Some (loss_at ns xs j))))
        \/ (stops_at ns xs log_likelihood_epsilon j = false
            /\ S j = Z.to_nat optimization_max_steps
            /\ fit_dimension optimization_max_steps log_likelihood_epsilon
                 ns xs loc
               = ok (fst (iterate ns xs (S j)),
                     mkLocals (Some (Z.of_nat j))
                       (Some (loss_at ns xs j))))).
Proof.
  intros Hn.
  destruct (fit_loop_trajectory ns xs log_likelihood_epsilon
              (Z.to_nat optimization_max_steps - 1) 0
              (mkFitState initial_params (opt_init initial_params) None
                 (loc_i loc) (loc_loss loc)) eq_refl eq_refl)
    as (j & Hj & Hbefore & Hend).
  exists j. split; [lia|]. split; [intros m Hm; apply Hbefore; lia|].
  unfold fit_dimension. rewrite (range_pos _ Hn).
  destruct Hend as [[H1 H2]|[H1 [H2 H3]]].
  - left. split; [exact H1|]. rewrite H2. reflexivity.
  - right. split; [exact H1|]. split; [lia|]. rewrite H3. reflexivity.
Qed.

Lemma fit_dimension_ok (optimization_max_steps : Z)
    (log_likelihood_epsilon : R) (ns xs : list Z) (loc : Locals) :
  (1 <= optimization_max_steps)%Z ->
  exists params i loss,
    fit_dimension optimization_max_steps log_likelihood_epsilon ns xs loc
    = ok (params, mkLocals (Some i) (Some loss)).
Proof.
  intros Hn.
  destruct (fit_dimension_trajectory optimization_max_steps
              log_likelihood_epsilon ns xs loc Hn)
    as (j & _ & _ & [[_ H]|[_ [_ H]]]); rewrite H; eauto.
Qed.

Lemma fit_dimension_no_step (optimization_max_steps : Z)
    (log_likelihood_epsilon : R) (ns xs : list Z) (i : option Z) :
  (optimization_max_steps <= 0)%Z ->
  fit_dimension optimization_max_steps log_likelihood_epsilon ns xs
    (mkLocals i None)
  = raise (UnboundLocalError (match i with
                              | None => "i"
                              | Some _ => "loss"
                              end)).
Proof.
  intros Hn. unfold fit_dimension, range.
  replace (Z.to_nat optimization_max_steps) with 0%nat by lia.
  cbn. destruct i; reflexivity.
Qed.

Lemma fit_models_ok (optimization_max_steps : Z)
    (log_likelihood_epsilon : R) (ns : list Z) (d : dict (list Z))
    (loc : Locals) :
  (1 <= optimization_max_steps)%Z ->
  exists model_params,
    fit_models optimization_max_steps log_likelihood_epsilon ns d loc
    = ok model_params
    /\ map fst model_params = map fst d.
Proof.
  intros Hn. revert loc.
  induction d as [|[size_key values] rest IH]; intros loc.
  - exists []. split; reflexivity.
  - cbn [fit_models].
    destruct (fit_dimension_ok optimization_max_steps log_likelihood_epsilon
                ns values loc Hn) as (params & i & loss & ->).
    cbn [rbind ok snd fst].
    destruct (IH (mkLocals (Some i) (Some loss))) as (mps & -> & Hk).
    exists ((size_key, params) :: mps). split; [reflexivity|].
    cbn [map fst]. now rewrite Hk.
Qed.

Lemma set_nth_app (A : Type) (l : list A) (v x : A) (t : list A) :
  set_nth (List.length l) v (l ++ x :: t) = l ++ v :: t.
Proof.
  induction l as [|y l IH]; cbn; [reflexivity | now rewrite IH].
Qed.

Lemma set_nth_filled (B : Type) (f : B -> Z) (draws : list B) (d : B)
    (rest : nat) :
  set_nth (List.length draws) (f d) (map f draws ++ np_empty (S rest))
  = map f (draws ++ [d]) ++ np_empty rest.
Proof.
  rewrite <- (length_map f draws). cbn [np_empty repeat].
  rewrite set_nth_app, map_app, <- app_assoc. reflexivity.
Qed.

Lemma store_filled (draws : list (Z * Example)) (rest : nat) (n : Z)
    (example : Example) :
  store (List.length draws) n example (filled draws (S rest))
  = filled (draws ++ [(n, example)]) rest.
Proof.
  unfold store, filled.
  cbn [data object_sizes size_keys map set_item size_key_eqb fst snd].
  rewrite (set_nth_filled _ fst draws (n, example)).
  rewrite !(set_nth_filled _ (fun d => measure _ (snd d)) draws (n, example)).
  reflexivity.
Qed.

Lemma sample_loop_app (lo hi : Z) (idx1 idx2 : list nat) (s : Samples)
    (w : World) :
  sample_loop lo hi (idx1 ++ idx2) s w
  = mbind (sample_loop lo hi idx1 s) (sample_loop lo hi idx2) w.
Proof.
  revert s w. induction idx1 as [|i idx1 IH]; intros s w; [reflexivity|].
  cbn [app sample_loop]. unfold mbind in *.
  destruct (sample_step lo hi i s w) as [[e|s1] w1]; [reflexivity|].
  apply IH.
Qed.

(** A successful run of the loop stores one drawn example per index. *)
Lemma sample_loop_filled (lo hi : Z) (len : nat)
    (draws : list (Z * Example)) (s' : Samples) (w w' : World) :
  sample_loop lo hi (seq (List.length draws) len) (filled draws len) w
  = (inr s', w') ->
  exists new,
    List.length new = len /\ s' = filled (draws ++ new) 0
    /\ Forall (drawn lo hi) new.
Proof.
  revert draws w. induction len as [|len IH]; intros draws w H.
  - cbn [seq sample_loop] in H. unfold mret, ok in H. injection H as <- <-.
    exists []. rewrite app_nil_r. auto.
  - cbn [seq sample_loop] in H. unfold mbind at 1 in H.
    unfold sample_step, mbind, mret in H. cbv beta in H.
    destruct (randint lo hi w) as [[e|n] w1] eqn:Hr; cbv beta iota in H;
      [discriminate|].
    destruct (example_builder n w1) as [[e|example] w2] eqn:Hb;
      cbv beta iota in H; [discriminate|].
    unfold ok in H. rewrite store_filled in H.
    replace (S (List.length draws)) with (List.length (draws ++ [(n, example)])) in H
      by (rewrite length_app; cbn; lia).
    destruct (IH _ _ H) as (new & Hlen & Hs & Hd).
    exists ((n, example) :: new). split; [cbn; now rewrite Hlen|].
    split; [now rewrite <- app_assoc in Hs|].
    constructor; [|exact Hd]. exists w, w1, w2. auto.
Qed.

(** What a successful sampling returns. *)
Lemma collect_samples_ok (samples lo hi : Z) (w w' : World) (s : Samples)
    (loc : Locals) :
  collect_samples samples lo hi w = (inr (s, loc), w') ->
  (0 <= samples)%Z
  /\ loc = mkLocals (if (samples =? 0)%Z then None else Some (samples - 1)%Z)
             None
  /\ exists draws,
       List.length draws = Z.to_nat samples /\ s = filled draws 0
       /\ Forall (drawn lo hi) draws.
Proof.
  unfold collect_samples. destruct (samples <? 0)%Z eqn:Hneg;
    [discriminate|].
  unfold mbind.
  destruct (sample_loop lo hi (seq 0 (Z.to_nat samples))
              (empty_samples (Z.to_nat samples)) w) as [[e|s1] w1] eqn:Hl;
    [discriminate|].
  unfold mret. intros [= <- <- <-]. split; [lia|]. split; [reflexivity|].
  destruct (sample_loop_filled lo hi (Z.to_nat samples) [] s1 w w1 Hl)
    as (new & Hlen & Hs & Hd).
  exists new. auto.
Qed.

(** An exception from the sampler is the outcome of the whole call. *)
Lemma calibrate_padding_sampler_raises (desired_sizes : PaddingConfig)
    (p : R) (samples lo hi steps : Z) (eps : R) (round : bool)
    (w w' : World) (e : exn) :
  collect_samples samples lo hi w = (inl e, w') ->
  calibrate_padding desired_sizes p samples lo hi steps eps round w
  = (inl e, w').
Proof.
  intros H. unfold calibrate_padding, mbind. now rewrite H.
Qed.

Lemma fit_models_dimensions (steps : Z) (eps : R) (ns : list Z)
    (d : dict (list Z)) (loc : Locals) (model_params : dict Params) :
  fit_models steps eps ns d loc = ok model_params ->
  Forall2 (fun kv kp =>
             fst kp = fst kv
             /\ exists l l',
                  fit_dimension steps eps ns (snd kv) l = ok (snd kp, l'))
    d model_params.
Proof.
  revert loc model_params.
  induction d as [|[size_key values] rest IH]; intros loc mps H.
  - cbn in H. injection H as <-. constructor.
  - cbn [fit_models] in H.
    destruct (fit_dimension steps eps ns values loc) as [e|[params l']] eqn:Hd;
      [discriminate|].
    cbn [rbind snd fst] in H.
    destruct (fit_models steps eps ns rest l') as [e|mps'] eqn:Hm;
      [discriminate|].
    cbn in H. injection H as <-. constructor.
    + split; [reflexivity|]. exists loc, l'. exact Hd.
    + now apply (IH l').
Qed.




(** C7: when a call of [example_builder] in the sampling loop raises, after
    [k] turns that succeeded, [calibrate_padding] ends with that very
    exception and in the state the builder left; the outcome is an
    exception or a complete pair of target size and padding
    configuration. *)
Theorem C7_builder_error_propagates (desired_sizes : PaddingConfig)
    (success_probability : R)
    (samples min_object_size max_object_size optimization_max_steps : Z)
    (log_likelihood_epsilon : R) (round_to_powers_of_two : bool)
    (w w_k w1 w2 : World) (k : nat) (s_k : Samples) (target_size : Z)
    (e : exn) :
  (k < Z.to_nat samples)%nat ->
  sample_loop min_object_size max_object_size (seq 0 k)
    (empty_samples (Z.to_nat samples)) w = (inr s_k, w_k) ->
  randint min_object_size max_object_size w_k = (inr target_size, w1) ->
  example_builder target_size w1 = (inl e, w2) ->
  calibrate_padding desired_sizes success_probability samples
    min_object_size max_object_size optimization_max_steps
    log_likelihood_epsilon round_to_powers_of_two w
  = (inl e, w2).
Proof.
  intros Hk Hloop Hr Hb. apply calibrate_padding_sampler_raises.
  unfold collect_samples.
  replace (samples <? 0)%Z with false by lia.
  assert (E : seq 0 (Z.to_nat samples)
              = seq 0 k ++ k :: seq (S k) (Z.to_nat samples - S k)).
  { replace (Z.to_nat samples) with (k + S (Z.to_nat samples - S k))%nat
      at 1 by lia.
    now rewrite seq_app. }
  rewrite E. unfold mbind at 1. rewrite sample_loop_app.
  unfold mbind at 1. rewrite Hloop. cbn [sample_loop].
  unfold mbind at 1. unfold sample_step, mbind. now rewrite Hr, Hb.
Qed.

(** C10: with [optimization_max_steps = 0] the call raises: what the
    sampler raised, or else [UnboundLocalError] at the [print] after the
    first fit, for [loss] (for [i] when there are no samples either).  With
    [optimization_max_steps >= 1] the fit of the dimensions never raises
    and returns one parameter tuple per dimension. *)
Theorem C10_zero_steps_raise (desired_sizes : PaddingConfig)
    (success_probability : R)
    (samples min_object_size max_object_size optimization_max_steps : Z)
    (log_likelihood_epsilon : R) (round_to_powers_of_two : bool) (w : World)
    (ns : list Z) (d : dict (list Z)) (loc : Locals) :
  (exists e,
      fst (calibrate_padding desired_sizes success_probability samples
             min_object_size max_object_size 0 log_likelihood_epsilon
             round_to_powers_of_two w) = inl e
      /\ forall sl w',
           collect_samples samples min_object_size max_object_size w
           = (inr sl, w') ->
           e = UnboundLocalError (if (samples =? 0)%Z then "i" else "loss"))
  /\ ((1 <= optimization_max_steps)%Z ->
      exists model_params,
        fit_models optimization_max_steps log_likelihood_epsilon ns d loc
        = ok model_params
        /\ map fst model_params = map fst d).
Proof.
  split; [|apply fit_models_ok].
  unfold calibrate_padding, mbind.
  destruct (collect_samples samples min_object_size max_object_size w)
    as [[e|[s l]] w1] eqn:Hc.
  - exists e. split; [reflexivity|]. intros sl w' [=].
  - destruct (collect_samples_ok _ _ _ _ _ _ _ Hc)
      as (Hs & -> & draws & _ & -> & _).
    exists (UnboundLocalError (if (samples =? 0)%Z then "i" else "loss")).
    split; [|reflexivity].
    unfold lift. cbn [fst snd data filled size_keys map fit_models].
    rewrite fit_dimension_no_step by lia.
    destruct (samples =? 0)%Z; reflexivity.
Qed.

(** X4: a negative number of samples makes the allocation of the arrays
    raise [ValueError], before anything is drawn or built. *)
Theorem negative_samples_raise (desired_sizes : PaddingConfig)
    (success_probability : R)
    (samples min_object_size max_object_size optimization_max_steps : Z)
    (log_likelihood_epsilon : R) (round_to_powers_of_two : bool) (w : World) :
  (samples < 0)%Z ->
  calibrate_padding desired_sizes success_probability samples
    min_object_size max_object_size optimization_max_steps
    log_likelihood_epsilon round_to_powers_of_two w
  = (inl ValueError, w).
Proof.
  intros H. apply calibrate_padding_sampler_raises.
  unfold collect_samples. replace (samples <? 0)%Z with true by lia.
  reflexivity.
Qed.

(** The first iteration assigns [i] and [loss]: what they were bound to
    before the loop has no part in its course. *)
Lemma fit_loop_locals (i0 : Z) (rest ns xs : list Z) (eps : R)
    (st : FitState) (i : option Z) (l : option fl) :
  fit_loop (i0 :: rest) ns xs eps
    (mkFitState (fit_params st) (fit_opt st) (last_loss st) i l)
  = fit_loop (i0 :: rest) ns xs eps st.
Proof. destruct st. reflexivity. Qed.

Lemma fit_dimension_fitted (steps : Z) (eps : R) (ns xs : list Z)
    (loc : Locals) :
  (1 <= steps)%Z ->
  exists loc',
    fit_dimension steps eps ns xs loc = ok (fitted steps eps ns xs, loc').
Proof.
  intros Hn.
  destruct (fit_dimension_ok steps eps ns xs loc Hn)
    as (params & i & loss & H).
  exists (mkLocals (Some i) (Some loss)). rewrite H. do 2 f_equal.
  unfold fit_dimension in H. unfold fitted.
  rewrite (range_pos _ Hn) in *. cbn [seq map] in *.
  rewrite <- (fit_loop_locals _ _ ns xs eps
                (mkFitState initial_params (opt_init initial_params)
                   None None None) (loc_i loc) (loc_loss loc)).
  cbn [fit_params fit_opt last_loss].
  destruct (fit_i _); [|discriminate].
  destruct (fit_loss _); [|discriminate].
  now injection H as <- _ _.
Qed.

(** Every dimension is fitted for itself: from (0, 1, 0, 1), against the
    one array of target sizes, whatever the other dimensions hold and
    whatever [i] and [loss] were bound to. *)
Lemma fit_models_fitted (steps : Z) (eps : R) (ns : list Z)
    (d : dict (list Z)) (loc : Locals) :
  (1 <= steps)%Z ->
  fit_models steps eps ns d loc
  = ok (map (fun kv => (fst kv, fitted steps eps ns (snd kv))) d).
Proof.
  intros Hn. revert loc.
  induction d as [|[size_key values] rest IH]; intros loc; [reflexivity|].
  cbn [fit_models map fst snd].
  destruct (fit_dimension_fitted steps eps ns values loc Hn) as [loc' ->].
  cbn [rbind ok fst snd]. now rewrite IH.
Qed.

Lemma filled_0 (draws : list (Z * Example)) :
  filled draws 0 = samples_of draws.
Proof.
  unfold filled, samples_of. cbn [np_empty repeat size_keys map].
  now rewrite !app_nil_r.
Qed.

Lemma sample_step_ok (lo hi : Z) (i : nat) (s : Samples) (w w1 w2 : World)
    (n : Z) (example : Example) :
  randint lo hi w = (inr n, w1) ->
  example_builder n w1 = (inr example, w2) ->
  sample_step lo hi i s w = (inr (store i n example s), w2).
Proof.
  intros Hr Hb. unfold sample_step, mbind, mret. now rewrite Hr, Hb.
Qed.

(** A chain of draws makes the loop succeed and store them in order. *)
Lemma sample_loop_chain (lo hi : Z) (new : list (Z * Example)) :
  forall (draws : list (Z * Example)) (rest : nat) (w w' : World),
    draws_from lo hi w new w' ->
    sample_loop lo hi (seq (List.length draws) (List.length new))
      (filled draws (List.length new + rest)) w
    = (inr (filled (draws ++ new) rest), w').
Proof.
  induction new as [|[n example] new IH]; intros draws rest w w' H.
  - cbn in H. subst w'. cbn [List.length seq sample_loop Nat.add].
    now rewrite app_nil_r.
  - destruct H as (w1 & w2 & Hr & Hb & H). cbn [fst snd] in Hr, Hb.
    cbn [List.length seq sample_loop Nat.add]. unfold mbind at 1.
    rewrite (sample_step_ok _ _ _ _ _ _ _ _ _ Hr Hb), store_filled.
    replace (S (List.length draws))
      with (List.length (draws ++ [(n, example)]))
      by (rewrite length_app; cbn; lia).
    rewrite (IH _ rest w2 w' H). now rewrite <- app_assoc.
Qed.

(** A loop that succeeds has run a chain of draws. *)
Lemma sample_loop_draws (lo hi : Z) (len : nat) :
  forall (draws : list (Z * Example)) (s' : Samples) (w w' : World),
    sample_loop lo hi (seq (List.length draws) len) (filled draws len) w
    = (inr s', w') ->
    exists new,
      List.length new = len /\ s' = filled (draws ++ new) 0
      /\ draws_from lo hi w new w'.
Proof.
  induction len as [|len IH]; intros draws s' w w' H.
  - cbn [seq sample_loop] in H. unfold mret, ok in H. injection H as <- <-.
    exists []. rewrite app_nil_r. repeat split.
  - cbn [seq sample_loop] in H. unfold mbind at 1 in H.
    unfold sample_step, mbind, mret in H. cbv beta in H.
    destruct (randint lo hi w) as [[e|n] w1] eqn:Hr; cbv beta iota in H;
      [discriminate|].
    destruct (example_builder n w1) as [[e|example] w2] eqn:Hb;
      cbv beta iota in H; [discriminate|].
    unfold ok in H. rewrite store_filled in H.
    replace (S (List.length draws))
      with (List.length (draws ++ [(n, example)])) in H
      by (rewrite length_app; cbn; lia).
    destruct (IH _ _ _ _ H) as (new & Hlen & Hs & Hd).
    exists ((n, example) :: new). split; [cbn; now rewrite Hlen|].
    split; [now rewrite <- app_assoc in Hs|].
    exists w1, w2. auto.
Qed.

(** What a sampling that succeeds has done and returns. *)
Lemma collect_samples_draws (samples lo hi : Z) (w w' : World) (s : Samples)
    (loc : Locals) :
  collect_samples samples lo hi w = (inr (s, loc), w') ->
  (0 <= samples)%Z
  /\ loc = mkLocals (if (samples =? 0)%Z then None else Some (samples - 1)%Z)
             None
  /\ exists draws,
       List.length draws = Z.to_nat samples /\ s = samples_of draws
       /\ draws_from lo hi w draws w'.
Proof.
  unfold collect_samples. destruct (samples <? 0)%Z eqn:Hneg;
    [discriminate|].
  unfold mbind.
  destruct (sample_loop lo hi (seq 0 (Z.to_nat samples))
              (empty_samples (Z.to_nat samples)) w) as [[e|s1] w1] eqn:Hl;
    [discriminate|].
  unfold mret. intros [= <- <- <-]. split; [lia|]. split; [reflexivity|].
  destruct (sample_loop_draws lo hi (Z.to_nat samples) [] s1 w w1 Hl)
    as (new & Hlen & Hs & Hd).
  exists new. rewrite <- filled_0. auto.
Qed.

(** After the sampling, with at least one optimisation step, the call is
    the solver and the reporter at the fits of the five dimensions. *)
Lemma calibrate_padding_of_draws (desired_sizes : PaddingConfig) (p : R)
    (samples lo hi steps : Z) (eps : R) (round : bool) (w w' : World)
    (draws : list (Z * Example)) (loc : Locals) :
  collect_samples samples lo hi w = (inr (samples_of draws, loc), w') ->
  (1 <= steps)%Z ->
  calibrate_padding desired_sizes p samples lo hi steps eps round w
  = (solve_and_report
       (params_dict
          (fun k =>
             fitted steps eps (map fst draws)
               (map (fun d => measure k (snd d)) draws)))
       desired_sizes p round,
     w').
Proof.
  intros Hc Hn. unfold calibrate_padding, mbind. rewrite Hc.
  unfold lift, samples_of. cbn [fst snd object_sizes data].
  rewrite fit_models_fitted by exact Hn.
  cbn [rbind ok size_keys map fst snd]. reflexivity.
Qed.

(** X11: how the three parts compose.  A call whose sampling succeeds and
    whose optimisation loop has at least one step is the solver and the
    reporter applied to the fits of the five dimensions; each fit starts
    from (0, 1, 0, 1) and sees the target sizes and its own measurements
    only, and neither the fit nor the solver draws a number or builds an
    example: the final state is the one the sampler left. *)
Theorem calibration_composes (desired_sizes : PaddingConfig)
    (success_probability : R)
    (samples min_object_size max_object_size optimization_max_steps : Z)
    (log_likelihood_epsilon : R) (round_to_powers_of_two : bool)
    (w w' : World) (s : Samples) (loc : Locals) :
  collect_samples samples min_object_size max_object_size w
  = (inr (s, loc), w') ->
  (1 <= optimization_max_steps)%Z ->
  exists draws,
    List.length draws = Z.to_nat samples
    /\ draws_from min_object_size max_object_size w draws w'
    /\ calibrate_padding desired_sizes success_probability samples
         min_object_size max_object_size optimization_max_steps
         log_likelihood_epsilon round_to_powers_of_two w
       = (solve_and_report
            (params_dict
               (fun k =>
                  fitted optimization_max_steps log_likelihood_epsilon
                    (map fst draws)
                    (map (fun d => measure k (snd d)) draws)))
            desired_sizes success_probability round_to_powers_of_two,
          w').
Proof.
  intros Hc Hn.
  destruct (collect_samples_draws _ _ _ _ _ _ _ Hc)
    as (_ & _ & draws & Hlen & Hs & Hd).
  exists draws. split; [exact Hlen|]. split; [exact Hd|]. subst s.
  now apply (calibrate_padding_of_draws _ _ _ _ _ _ _ _ _ _ _ loc).
Qed.

(** X13: the sampler, exactly.  For a number of samples that is not
    negative the sampling succeeds precisely when [samples] draws succeed
    one after the other, each [randint] followed by the [example_builder]
    call on its result; the arrays then hold the target sizes and the five
    measurements of those draws in their order, the state is the one the
    last call left, and [i] stays bound to the last index. *)
Theorem sampler_exact (samples min_object_size max_object_size : Z)
    (w w' : World) (s : Samples) (loc : Locals) :
  (0 <= samples)%Z ->
  (collect_samples samples min_object_size max_object_size w
   = (inr (s, loc), w')
   <-> exists draws,
         List.length draws = Z.to_nat samples
         /\ draws_from min_object_size max_object_size w draws w'
         /\ s = samples_of draws
         /\ loc = mkLocals (if (samples =? 0)%Z then None
                            else Some (samples - 1)%Z) None).
Proof.
  intros Hs. split.
  - intros Hc.
    destruct (collect_samples_draws _ _ _ _ _ _ _ Hc)
      as (_ & Hloc & draws & Hlen & Hsd & Hd).
    exists draws. auto.
  - intros (draws & Hlen & Hd & -> & ->). unfold collect_samples.
    replace (samples <? 0)%Z with false by lia. unfold mbind.
    rewrite <- Hlen.
    pose proof (sample_loop_chain min_object_size max_object_size draws
                  [] 0 w w' Hd) as L.
    rewrite Nat.add_0_r in L. cbn [List.length app] in L.
    change (empty_samples (List.length draws))
      with (filled [] (List.length draws)).
    rewrite L, filled_0. reflexivity.
Qed.

(** X14: an exception of [randint] ends the call.  When, after a chain of
    fewer than [samples] draws, [randint] raises, the call ends with that
    exception in the state [randint] left: the example builder is not
    called again, and nothing is fitted. *)
Theorem randint_error_propagates (desired_sizes : PaddingConfig)
    (success_probability : R)
    (samples min_object_size max_object_size optimization_max_steps : Z)
    (log_likelihood_epsilon : R) (round_to_powers_of_two : bool)
    (w w_k w1 : World) (draws : list (Z * Example)) (e : exn) :
  (List.length draws < Z.to_nat samples)%nat ->
  draws_from min_object_size max_object_size w draws w_k ->
  randint min_object_size max_object_size w_k = (inl e, w1) ->
  calibrate_padding desired_sizes success_probability samples
    min_object_size max_object_size optimization_max_steps
    log_likelihood_epsilon round_to_powers_of_two w
  = (inl e, w1).
Proof.
  intros Hk Hd Hr. apply calibrate_padding_sampler_raises.
  unfold collect_samples. replace (samples <? 0)%Z with false by lia.
  set (k := List.length draws) in *.
  assert (E : seq 0 (Z.to_nat samples)
              = seq 0 k ++ k :: seq (S k) (Z.to_nat samples - S k)).
  { replace (Z.to_nat samples) with (k + S (Z.to_nat samples - S k))%nat
      at 1 by lia.
    now rewrite seq_app. }
  rewrite E. unfold mbind at 1. rewrite sample_loop_app. unfold mbind at 1.
  pose proof (sample_loop_chain min_object_size max_object_size draws
                [] (Z.to_nat samples - k) w w_k Hd) as L.
  cbn [List.length app] in L. fold k in L.
  replace (k + (Z.to_nat samples - k))%nat with (Z.to_nat samples) in L
    by lia.
  change (empty_samples (Z.to_nat samples))
    with (filled [] (Z.to_nat samples)).
  rewrite L. cbn [sample_loop]. unfold mbind at 1.
  unfold sample_step, mbind. now rewrite Hr.
Qed.

Lemma stops_at_never (ns xs : list Z) (eps : R) (j : nat) :
  eps <= 0 \/ (forall m, loss_at ns xs m = None) ->
  stops_at ns xs eps j = false.
Proof.
  intros H. destruct j as [|j]; [reflexivity|]. cbn [stops_at].
  destruct H as [H|H].
  - unfold fl_close. destruct (loss_at ns xs j) as [a|]; [|reflexivity].
    destruct (loss_at ns xs (S j)) as [b|]; [|reflexivity].
    destruct (Rlt_dec (Rabs (a - b)) eps) as [L|]; [|reflexivity].
    pose proof (Rabs_pos (a - b)). lra.
  - now rewrite (H j).
Qed.

(** X15: no early stop without a positive tolerance.  With
    [log_likelihood_epsilon <= 0], or with a loss that is never finite,
    the test of the loop never succeeds: the fit of a dimension makes
    exactly [optimization_max_steps] updates, and [i] ends at
    [optimization_max_steps - 1]. *)
Theorem no_early_stop (optimization_max_steps : Z)
    (log_likelihood_epsilon : R) (ns xs : list Z) (loc : Locals) :
  (1 <= optimization_max_steps)%Z ->
  log_likelihood_epsilon <= 0 \/ (forall m, loss_at ns xs m = None) ->
  fit_dimension optimization_max_steps log_likelihood_epsilon ns xs loc
  = ok (fst (iterate ns xs (Z.to_nat optimization_max_steps)),
        mkLocals (Some (optimization_max_steps - 1)%Z)
          (Some (loss_at ns xs (Z.to_nat optimization_max_steps - 1)))).
Proof.
  intros Hn He.
  destruct (fit_dimension_trajectory optimization_max_steps
              log_likelihood_epsilon ns xs loc Hn)
    as (j & Hj & _ & [[Hstop _]|[_ [HS ->]]]).
  - rewrite stops_at_never in Hstop by exact He. discriminate.
  - rewrite <- HS. do 3 f_equal; [f_equal; lia | do 2 f_equal; lia].
Qed.

Lemma compute_loss_nil (params : Params) : compute_loss params [] [] = Some (- 0).
Proof. reflexivity. Qed.

Lemma fitted_no_samples (steps : Z) (eps : R) :
  (1 <= steps)%Z -> 0 < eps ->
  fitted steps eps [] [] = fst (iterate [] [] 1).
Proof.
  intros Hn He.
  destruct (fit_dimension_fitted steps eps [] [] (mkLocals None None) Hn)
    as [loc' Hf].
  destruct (fit_dimension_trajectory steps eps [] [] (mkLocals None None) Hn)
    as (j & Hj & Hbefore & Hend).
  assert (H1 : stops_at [] [] eps 1 = true).
  { cbn [stops_at]. unfold loss_at. rewrite !compute_loss_nil.
    unfold fl_close. replace (- 0 - - 0) with 0 by ring. rewrite Rabs_R0.
    destruct (Rlt_dec 0 eps); [reflexivity | contradiction]. }
  destruct Hend as [[Hstop Hfit]|[Hstop [HS Hfit]]];
    rewrite Hfit in Hf; injection Hf as Hf _; rewrite <- Hf.
  - destruct j as [|[|j]]; [discriminate | reflexivity |].
    rewrite (Hbefore 1%nat) in H1 by lia. discriminate.
  - destruct j as [|j]; [reflexivity|]. destruct j as [|j].
    + rewrite Hstop in H1. discriminate.
    + rewrite (Hbefore 1%nat) in H1 by lia. discriminate.
Qed.

(** X16: no samples.  With [samples = 0], a positive tolerance and at
    least one optimisation step, neither [randint] nor [example_builder]
    is called, whatever the size range is; the loss of the empty arrays is
    zero, so every dimension keeps the parameters of exactly one update
    from (0, 1, 0, 1), and the call is the solver and the reporter at
    those parameters. *)
Theorem no_samples (desired_sizes : PaddingConfig)
    (success_probability : R)
    (min_object_size max_object_size optimization_max_steps : Z)
    (log_likelihood_epsilon : R) (round_to_powers_of_two : bool)
    (w : World) :
  (1 <= optimization_max_steps)%Z ->
  0 < log_likelihood_epsilon ->
  calibrate_padding desired_sizes success_probability 0
    min_object_size max_object_size optimization_max_steps
    log_likelihood_epsilon round_to_powers_of_two w
  = (solve_and_report (params_dict (fun _ => fst (iterate [] [] 1)))
       desired_sizes success_probability round_to_powers_of_two,
     w).
Proof.
  intros Hn He.
  rewrite (calibrate_padding_of_draws _ _ _ _ _ _ _ _ w w []
             (mkLocals None None)) by (reflexivity || exact Hn).
  cbn [map]. now rewrite fitted_no_samples.
Qed.

(** X18: the success probability is not checked before it is used.  For
    a probability at which erfinv(2p - 1) has no finite value, a call with
    at least one optimisation step does all of its sampling and fitting
    and then raises [ValueError], at the conversion of the minimum
    constraint. *)
Theorem invalid_probability_raises_late (desired_sizes : PaddingConfig)
    (success_probability : R)
    (samples min_object_size max_object_size optimization_max_steps : Z)
    (log_likelihood_epsilon : R) (round_to_powers_of_two : bool)
    (w w' : World) (s : Samples) (loc : Locals) :
  erfinv (2 * success_probability - 1) = None ->
  (1 <= optimization_max_steps)%Z ->
  collect_samples samples min_object_size max_object_size w
  = (inr (s, loc), w') ->
  calibrate_padding desired_sizes success_probability samples
    min_object_size max_object_size optimization_max_steps
    log_likelihood_epsilon round_to_powers_of_two w
  = (inl ValueError, w').
Proof.
  intros He Hn Hc.
  destruct (collect_samples_draws _ _ _ _ _ _ _ Hc)
    as (_ & _ & draws & _ & -> & _).
  rewrite (calibrate_padding_of_draws _ _ _ _ _ _ _ _ _ _ _ _ Hc) by exact Hn.
  now rewrite SolverErrors.solve_and_report_no_erfinv.
Qed.

Section RandintContract.

(** The contract of [np.random.randint(low, high)]: a value it returns lies
    in the half-open range from [low] to [high]. *)
Hypothesis randint_range :
  forall (low high : Z) (w w' : World) (n : Z),
    randint low high w = (inr n, w') -> (low <= n < high)%Z.

(** C8: after a sampling that succeeds there is one drawn example per
    sample; the target size of each is a value returned by
    [randint(min_object_size, max_object_size)], handed over to
    [example_builder] as it is, and lies in the half-open range; the array
    of target sizes and the five arrays of measurements list the same
    examples in the same order, and every dimension is fitted against that
    one array of target sizes. *)
Theorem C8_target_sizes_in_range
    (samples min_object_size max_object_size : Z) (w w' : World)
    (s : Samples) (loc : Locals) :
  collect_samples samples min_object_size max_object_size w
  = (inr (s, loc), w') ->
  exists draws : list (Z * Example),
    List.length draws = Z.to_nat samples
    /\ object_sizes s = map fst draws
    /\ data s = map (fun k => (k, map (fun d => measure k (snd d)) draws))
                  size_keys
    /\ Forall (fun d =>
                 (min_object_size <= fst d < max_object_size)%Z
                 /\ drawn min_object_size max_object_size d) draws
    /\ forall steps eps model_params,
         fit_models steps eps (object_sizes s) (data s) loc
         = ok model_params ->
         Forall2 (fun kv kp =>
                    fst kp = fst kv
                    /\ exists l l',
                         fit_dimension steps eps (map fst draws) (snd kv) l
                         = ok (snd kp, l'))
           (data s) model_params.
Proof.
  intros Hc.
  destruct (collect_samples_ok _ _ _ _ _ _ _ Hc)
    as (Hs & _ & draws & Hlen & -> & Hd).
  exists draws. unfold filled.
  cbn [object_sizes data np_empty repeat size_keys map].
  rewrite !app_nil_r. split; [exact Hlen|]. split; [reflexivity|].
  split; [reflexivity|]. split.
  - apply Forall_forall. intros x Hx.
    rewrite Forall_forall in Hd. specialize (Hd x Hx).
    split; [|exact Hd]. destruct Hd as (w1 & w2 & w3 & Hr & _).
    apply (randint_range _ _ _ _ _ Hr).
  - intros steps eps mps Hf. now apply fit_models_dimensions in Hf.
Qed.

End RandintContract.

End Collaborators.

End CalibrationFacts.

(** ** Runs of the deterministic instance *)

Module Runs.
Import PyNum Erf Py Data Solver Calibration CalibrationFacts Demo.

Lemma randint_range (low high : Z) (w w' : World) (n : Z) :
  randint low high w = (inr n, w') -> (low <= n < high)%Z.
Proof.
  unfold randint. destruct (low <? high)%Z eqn:H; [|discriminate].
  intros [= <- _]. apply Z.ltb_lt in H.
  pose proof (Z.mod_pos_bound (w * 7919) (high - low) ltac:(lia)). lia.
Qed.

Lemma two_samples_collected :
  collect_samples World randint example_builder 2 16 512 0%Z
  = (inr (two_samples, mkLocals (Some 1%Z) None), 2%Z).
Proof. reflexivity. Qed.


Lemma C7_builder_error_propagates_witness :
  calibrate_padding World randint small_builder grad OptState opt_init
    opt_update (uniform_config 64) 0.9 3 16 512 100 0.01 false 0%Z
  = (inl (UserError "target size too large"), 2%Z).
Proof.
  eapply (C7_builder_error_propagates World randint small_builder grad
            OptState opt_init opt_update (uniform_config 64) 0.9 3 16 512
            100 0.01 false 0%Z 1%Z 2%Z 2%Z 1%nat).
  - cbn. lia.
  - reflexivity.
  - reflexivity.
  - reflexivity.
Defined.

Lemma C8_target_sizes_in_range_witness :
  exists draws : list (Z * Example),
    List.length draws = Z.to_nat 2
    /\ object_sizes two_samples = map fst draws
    /\ data two_samples
       = map (fun k => (k, map (fun d => measure k (snd d)) draws)) size_keys
    /\ Forall (fun d =>
                 (16 <= fst d < 512)%Z
                 /\ drawn World randint example_builder 16 512 d) draws
    /\ forall steps eps model_params,
         fit_models grad OptState opt_init opt_update steps eps
           (object_sizes two_samples) (data two_samples)
           (mkLocals (Some 1%Z) None)
         = ok model_params ->
         Forall2 (fun kv kp =>
                    fst kp = fst kv
                    /\ exists l l',
                         fit_dimension grad OptState opt_init opt_update
                           steps eps (map fst draws) (snd kv) l
                         = ok (snd kp, l'))
           (data two_samples) model_params.
Proof.
  apply (C8_target_sizes_in_range World randint example_builder grad
           OptState opt_init opt_update randint_range 2 16 512 0%Z 2%Z
           two_samples (mkLocals (Some 1%Z) None)).
  exact two_samples_collected.
Defined.

Lemma C10_zero_steps_raise_witness :
  exists model_params,
    fit_models grad OptState opt_init opt_update 1 0.01
      (object_sizes two_samples) (data two_samples)
      (mkLocals (Some 1%Z) None)
    = ok model_params
    /\ map fst model_params = map fst (data two_samples).
Proof.
  apply (C10_zero_steps_raise World randint example_builder grad OptState
           opt_init opt_update (uniform_config 64) 0.9 2 16 512 1 0.01 false
           0%Z (object_sizes two_samples) (data two_samples)
           (mkLocals (Some 1%Z) None)).
  lia.
Defined.

Lemma negative_samples_raise_witness :
  calibrate_padding World randint example_builder grad OptState opt_init
    opt_update (uniform_config 64) 0.9 (-1) 16 512 100 0.01 false 0%Z
  = (inl ValueError, 0%Z).
Proof.
  apply (negative_samples_raise World randint example_builder grad OptState
           opt_init opt_update (uniform_config 64) 0.9 (-1) 16 512 100 0.01
           false 0%Z).
  lia.
Defined.

Lemma calibration_composes_witness :
  exists draws,
    List.length draws = Z.to_nat 2
    /\ draws_from World randint example_builder 16 512 0%Z draws 2%Z
    /\ calibrate_padding World randint example_builder grad OptState opt_init
         opt_update (uniform_config 64) 0.9 2 16 512 1 0.01 false 0%Z
       = (solve_and_report
            (params_dict
               (fun k =>
                  fitted grad OptState opt_init opt_update 1 0.01
                    (map fst draws)
                    (map (fun d => measure k (snd d)) draws)))
            (uniform_config 64) 0.9 false,
          2%Z).
Proof.
  apply (calibration_composes World randint example_builder grad OptState
           opt_init opt_update (uniform_config 64) 0.9 2 16 512 1 0.01 false
           0%Z 2%Z two_samples (mkLocals (Some 1%Z) None)).
  - exact two_samples_collected.
  - lia.
Defined.

Lemma sampler_exact_witness :
  collect_samples World randint example_builder 2 16 512 0%Z
  = (inr (two_samples, mkLocals (Some 1%Z) None), 2%Z)
  <-> exists draws,
        List.length draws = Z.to_nat 2
        /\ draws_from World randint example_builder 16 512 0%Z draws 2%Z
        /\ two_samples = samples_of draws
        /\ mkLocals (Some 1%Z) None
           = mkLocals (if (2 =? 0)%Z then None else Some (2 - 1)%Z) None.
Proof.
  apply (sampler_exact World randint example_builder 2 16 512 0%Z 2%Z
           two_samples (mkLocals (Some 1%Z) None)).
  lia.
Defined.

Lemma randint_error_propagates_witness :
  calibrate_padding World randint example_builder grad OptState opt_init
    opt_update (uniform_config 64) 0.9 3 512 16 100 0.01 false 0%Z
  = (inl ValueError, 0%Z).
Proof.
  apply (randint_error_propagates World randint example_builder grad
           OptState opt_init opt_update (uniform_config 64) 0.9 3 512 16 100
           0.01 false 0%Z 0%Z 0%Z [] ValueError).
  - cbn. lia.
  - reflexivity.
  - reflexivity.
Defined.

Lemma no_early_stop_witness :
  fit_dimension grad OptState opt_init opt_update 3 0 [1; 2]%Z [2; 4]%Z
    (mkLocals None None)
  = ok (fst (iterate grad OptState opt_init opt_update [1; 2]%Z [2; 4]%Z
               (Z.to_nat 3)),
        mkLocals (Some (3 - 1)%Z)
          (Some (loss_at grad OptState opt_init opt_update [1; 2]%Z [2; 4]%Z
                   (Z.to_nat 3 - 1)))).
Proof.
  apply (no_early_stop grad OptState opt_init opt_update 3 0 [1; 2]%Z
           [2; 4]%Z (mkLocals None None)).
  - lia.
  - left. lra.
Defined.

Lemma no_samples_witness :
  calibrate_padding World randint example_builder grad OptState opt_init
    opt_update (uniform_config 64) 0.9 0 16 512 100 0.01 false 0%Z
  = (solve_and_report
       (params_dict
          (fun _ => fst (iterate grad OptState opt_init opt_update [] [] 1)))
       (uniform_config 64) 0.9 false,
     0%Z).
Proof.
  apply (no_samples World randint example_builder grad OptState opt_init
           opt_update (uniform_config 64) 0.9 16 512 100 0.01 false 0%Z).
  - lia.
  - lra.
Defined.

Lemma invalid_probability_raises_late_witness :
  calibrate_padding World randint example_builder grad OptState opt_init
    opt_update (uniform_config 64) (3 / 2) 2 16 512 1 0.01 false 0%Z
  = (inl ValueError, 2%Z).
Proof.
  apply (invalid_probability_raises_late World randint example_builder grad
           OptState opt_init opt_update (uniform_config 64) (3 / 2) 2 16 512
           1 0.01 false 0%Z 2%Z two_samples (mkLocals (Some 1%Z) None)).
  - apply ErfFacts.erfinv_out_of_range.
    replace (2 * (3 / 2) - 1) with 2 by lra.
    rewrite Rabs_pos_eq; lra.
  - lia.
  - exact two_samples_collected.
Defined.

End Runs.
